(** * SimpyTheaterRealPython: a theater queueing simulation

    The script drives a discrete-event engine with generator functions.
    A generator is embedded as an interaction tree over the calls it makes
    to its surroundings (the engine, the [random] module, the shared sample
    list); the surroundings answer through an oracle, so that every
    statement below holds for whatever the engine decides to do. *)

From Stdlib Require Import ZArith QArith Qround List String Bool Lia Lqa Permutation.
From ITree Require Import ITree.
Import ListNotations.
Import ITreeNotations.
Local Open Scope itree_scope.
Local Open Scope Q_scope.


(** ** Values exchanged with the surroundings *)

(** Python objects are told apart by identity; an identity is a number. *)
Definition object := nat.

(** Exceptions a generator may see. *)
Inductive exn : Type :=
| StatisticsError
| NameError
| Interrupt (cause : nat)
| Failure (cause : nat).

(** Result of running Python code that may raise. *)
Inductive result (A : Type) : Type :=
| Normal (a : A)
| Raised (e : exn).

Arguments Normal {A} a.
Arguments Raised {A} e.

(** What a suspended generator gets when the engine resumes it at a
    [yield]: either it simply goes on, or an exception is thrown in. *)
Inductive resumption : Type :=
| Resumed
| Thrown (e : exn).

(** class Theater: the three resources made by [__init__].  Its [env] is
    the one environment of the run, which every call below goes to. *)
Record Theater : Type := mkTheater {
  cashier : object;
  server : object;
  usher : object
}.

(** The generator functions of the script, as values that can be handed to
    [env.process]. *)
Inductive generator : Type :=
| GoToMovies (moviegoer : Z) (theater : Theater)
| PurchaseTicket (theater : Theater) (moviegoer : Z)
| CheckTicket (theater : Theater) (moviegoer : Z)
| SellFood (theater : Theater) (moviegoer : Z)
| RunTheater (num_cashiers num_servers num_ushers : Z).

(** The calls a generator makes. *)
Variant simE : Type -> Type :=
| Now : simE Q                                      (* env.now *)
| NewResource (capacity : Z) : simE object          (* simpy.Resource(env, n) *)
| Request (res : object) : simE object              (* res.request() *)
| Release (res : object) (request : object) : simE unit (* leaving [with] *)
| Timeout (delay : Q) : simE object                 (* env.timeout(d) *)
| Process (g : generator) : simE object             (* env.process(g) *)
| Yield (ev : object) : simE resumption             (* yield ev *)
| Random : simE Q                                   (* random.random() *)
| Append (x : Q) : simE unit.                       (* wait_times.append(x) *)

Definition gen (A : Type) : Type := itree simE (result A).

(** Sequencing of code that may raise: an exception skips the rest. *)
Definition bind_result {A B : Type} (t : gen A) (k : A -> gen B) : gen B :=
  r <- t ;;
  match r with
  | Normal a => k a
  | Raised e => Ret (Raised e)
  end.

Notation "x <-! t ;;; k" := (bind_result t (fun x => k))
  (at level 62, t at next level, right associativity) : itree_scope.
Notation "t ;;; k" := (bind_result t (fun _ => k))
  (at level 62, right associativity) : itree_scope.

Definition call {X : Type} (e : simE X) : gen X :=
  x <- ITree.trigger e ;; Ret (Normal x).

(** [yield ev]: suspends; an exception thrown in is raised at this point. *)
Definition yield_ (ev : object) : gen unit :=
  r <- ITree.trigger (Yield ev) ;;
  match r with
  | Resumed => Ret (Normal tt)
  | Thrown e => Ret (Raised e)
  end.

(** [with res.request() as request: body]: the request is released when the
    block is left, normally or by an exception, which then goes on. *)
Definition with_request {A : Type} (res : object) (body : object -> gen A) : gen A :=
  request <- ITree.trigger (Request res) ;;
  r <- body request ;;
  ITree.trigger (Release res request) ;;
  Ret r.

(** ** The [random] module *)

(** random.uniform(a, b) is [a + (b-a) * random()]. *)
Definition uniform (a b : Q) : gen Q :=
  u <-! call Random ;;;
  Ret (Normal (a + (b - a) * u)).

(** itertools.accumulate: running sums. *)
Fixpoint accumulate_from (acc : Q) (ws : list Q) : list Q :=
  match ws with
  | [] => []
  | w :: ws' => (acc + w) :: accumulate_from (acc + w) ws'
  end.

Definition accumulate (ws : list Q) : list Q := accumulate_from 0 ws.

(** bisect.bisect(a, x, 0, hi) on a sorted list: the number of entries
    among the first [hi] that are [<= x]. *)
Fixpoint bisect (a : list Q) (x : Q) (hi : nat) : nat :=
  match hi, a with
  | S hi', y :: a' => if Qle_bool y x then S (bisect a' x hi') else 0%nat
  | _, _ => 0%nat
  end.

(** random.choices(population, weights=weights, k=1): one draw [u], scaled
    by the total weight, looked up in the cumulative weights. *)
Definition pick (population : list string) (weights : list Q) (u : Q) : list string :=
  let cum_weights := accumulate weights in
  let total := last cum_weights 0 in
  let hi := (List.length population - 1)%nat in
  [nth (bisect cum_weights (u * total) hi) population EmptyString].

Definition choices (population : list string) (weights : list Q) : gen (list string) :=
  u <-! call Random ;;;
  Ret (Normal (pick population weights u)).

(** ['food' in xs] *)
Definition str_in (s : string) (xs : list string) : bool :=
  existsb (String.eqb s) xs.

(** ** class Theater *)

Definition Theater_init (num_cashiers num_servers num_ushers : Z) : gen Theater :=
  c <-! call (NewResource num_cashiers) ;;;
  s <-! call (NewResource num_servers) ;;;
  u <-! call (NewResource num_ushers) ;;;
  Ret (Normal (mkTheater c s u)).

Definition purchase_ticket (theater : Theater) (moviegoer : Z) : gen unit :=
  d <-! uniform 1 3 ;;;
  ev <-! call (Timeout d) ;;;
  yield_ ev.

Definition check_ticket (theater : Theater) (moviegoer : Z) : gen unit :=
  ev <-! call (Timeout (1 # 20)) ;;;
  yield_ ev.

Definition sell_food (theater : Theater) (moviegoer : Z) : gen unit :=
  d <-! uniform 1 5 ;;;
  ev <-! call (Timeout d) ;;;
  yield_ ev.

(** ** go_to_movies *)

Definition food_list : list string := ["food"; "no_food"]%string.

(** [go_to_movies(env, moviegoer, theater)]; the sample goes to the list
    [wait_times] of the module, shared by all moviegoers. *)
Definition go_to_movies (moviegoer : Z) (theater : Theater) : gen unit :=
  arrival_time <-! call Now ;;;
  with_request (cashier theater) (fun request =>
    yield_ request ;;;
    p <-! call (Process (PurchaseTicket theater moviegoer)) ;;;
    yield_ p) ;;;
  with_request (usher theater) (fun request =>
    yield_ request ;;;
    p <-! call (Process (CheckTicket theater moviegoer)) ;;;
    yield_ p) ;;;
  choice <-! choices food_list [2 # 5; 3 # 5] ;;;
  (if str_in "food" choice
   then with_request (server theater) (fun request =>
          yield_ request ;;;
          p <-! call (Process (SellFood theater moviegoer)) ;;;
          yield_ p)
   else Ret (Normal tt)) ;;;
  now <-! call Now ;;;
  call (Append (now - arrival_time)) ;;;
  Ret (Normal tt).

(** ** run_theater *)

(** [for x in xs: body x]; gives the last value bound to the loop variable,
    if any. *)
Fixpoint for_in {A : Type} (xs : list A) (body : A -> gen unit) (bound : option A)
  : gen (option A) :=
  match xs with
  | [] => Ret (Normal bound)
  | x :: xs' => body x ;;; for_in xs' body (Some x)
  end.

(** range(n) *)
Definition range (n : nat) : list Z := map Z.of_nat (seq 0 n).

(** One turn of the [while True] loop: [inl] goes round again with the new
    value of [moviegoer]; an exception thrown in at the [yield] ends it. *)
Definition arrive (theater : Theater) (moviegoer : Z) : itree simE (Z + result unit) :=
  ev <- ITree.trigger (Timeout (1 # 5)) ;;
  r <- ITree.trigger (Yield ev) ;;
  match r with
  | Thrown e => Ret (inr (Raised e))
  | Resumed =>
      let moviegoer := (moviegoer + 1)%Z in
      ITree.trigger (Process (GoToMovies moviegoer theater)) ;;
      Ret (inl moviegoer)
  end.

Definition run_theater (num_cashiers num_servers num_ushers : Z) : gen unit :=
  theater <-! Theater_init num_cashiers num_servers num_ushers ;;;
  bound <-! for_in (range 5)
    (fun moviegoer => call (Process (GoToMovies moviegoer theater)) ;;; Ret (Normal tt))
    None ;;;
  match bound with
  | None => Ret (Raised NameError)
  | Some moviegoer => ITree.iter (arrive theater) moviegoer
  end.

(** The body run by [env.process(g)]. *)
Definition body (g : generator) : gen unit :=
  match g with
  | GoToMovies moviegoer theater => go_to_movies moviegoer theater
  | PurchaseTicket theater moviegoer => purchase_ticket theater moviegoer
  | CheckTicket theater moviegoer => check_ticket theater moviegoer
  | SellFood theater moviegoer => sell_food theater moviegoer
  | RunTheater c s u => run_theater c s u
  end.

(** ** The averaging helpers *)

Definition sum (data : list Q) : Q := fold_right Qplus 0 data.

(** statistics.mean: the arithmetic mean; StatisticsError on no data. *)
Definition mean (data : list Q) : result Q :=
  match data with
  | [] => Raised StatisticsError
  | _ :: _ => Normal (sum data / inject_Z (Z.of_nat (List.length data)))
  end.

(** divmod(x, y) for [y > 0]: the floor of the quotient and what is left. *)
Definition divmod (x y : Q) : Q * Q :=
  let q := inject_Z (Qfloor (x / y)) in
  (q, x - q * y).

Definition get_average_wait_time (wait_times : list Q) : result Q :=
  match mean wait_times with
  | Raised e => Raised e
  | Normal average_wait => Normal average_wait
  end.

Definition calculate_wait_time (wait_times : list Q) : result (Q * Q) :=
  match mean wait_times with
  | Raised e => Raised e
  | Normal average_wait =>
      let (minutes, frac_minutes) := divmod average_wait 1 in
      let seconds := frac_minutes * 60 in
      Normal (minutes, seconds)
  end.

(** ** Running a generator against its surroundings *)

(** The surroundings: what the clock shows, what [random()] draws and how a
    [yield] is resumed, at each call the generator makes (calls are counted
    from the start of the run). *)
Record oracle : Type := mkOracle {
  clock : nat -> Q;
  draw : nat -> Q;
  resume : nat -> resumption
}.

(** The answer to the [i]-th call.  A new object gets [i] as its identity,
    so objects made by different calls are different. *)
Definition answer (o : oracle) (i : nat) {X : Type} (e : simE X) : X :=
  match e in simE X return X with
  | Now => clock o i
  | NewResource _ => i
  | Request _ => i
  | Release _ _ => tt
  | Timeout _ => i
  | Process _ => i
  | Yield _ => resume o i
  | Random => draw o i
  | Append _ => tt
  end.

(** One observed call with its answer. *)
Inductive obs : Type :=
| Obs {X : Type} (e : simE X) (x : X).

Inductive outcome (A : Type) : Type :=
| Returned (r : result A)
| Unfinished.

Arguments Returned {A} r.
Arguments Unfinished {A}.

(** Run for at most [fuel] steps, the first call being number [i].  A step
    is a call or a silent step; a generator that has returned needs none. *)
Fixpoint run {A : Type} (fuel : nat) (o : oracle) (i : nat) (t : gen A)
  : list obs * outcome A :=
  match observe t with
  | RetF r => ([], Returned r)
  | TauF t' =>
      match fuel with
      | O => ([], Unfinished)
      | S fuel' => run fuel' o i t'
      end
  | VisF e k =>
      match fuel with
      | O => ([], Unfinished)
      | S fuel' =>
          let x := answer o i e in
          let (tr, r) := run fuel' o (S i) (k x) in
          (Obs e x :: tr, r)
      end
  end.

(** An observed call put in front of the rest of a run. *)
Definition after {A : Type} (ob : obs) (p : list obs * outcome A) : list obs * outcome A :=
  let (tr, r) := p in (ob :: tr, r).

(** ** What a trace shows *)

(** The samples appended to [wait_times]. *)
Definition sample_of (ob : obs) : list Q :=
  match ob with
  | Obs (Append x) _ => [x]
  | Obs _ _ => []
  end.

Definition samples (tr : list obs) : list Q := flat_map sample_of tr.

(** The delays of the timeouts made. *)
Definition timeout_of (ob : obs) : list Q :=
  match ob with
  | Obs (Timeout d) _ => [d]
  | Obs _ _ => []
  end.

Definition timeouts (tr : list obs) : list Q := flat_map timeout_of tr.

(** The generators handed to [env.process]. *)
Definition spawn_of (ob : obs) : list generator :=
  match ob with
  | Obs (Process g) _ => [g]
  | Obs _ _ => []
  end.

Definition spawns (tr : list obs) : list generator := flat_map spawn_of tr.

(** The readings of the clock. *)
Definition now_of (ob : obs) : list Q :=
  match ob with
  | Obs Now t => [t]
  | Obs _ _ => []
  end.

Definition nows (tr : list obs) : list Q := flat_map now_of tr.

(** The draws of [random()]. *)
Definition draw_of (ob : obs) : list Q :=
  match ob with
  | Obs Random u => [u]
  | Obs _ _ => []
  end.

Definition draws (tr : list obs) : list Q := flat_map draw_of tr.

(** Does the call touch resource [res]? *)
Definition touches (res : object) (ob : obs) : bool :=
  match ob with
  | Obs (Request r) _ => Nat.eqb r res
  | Obs (Release r _) _ => Nat.eqb r res
  | Obs _ _ => false
  end.

(** The calls of a trace that touch resource [res]. *)
Definition uses (res : object) (tr : list obs) : list obs := filter (touches res) tr.

(** Bookkeeping of the requests held: a request enters when it is made and
    leaves when it is released; releasing a request that is not held (never
    made, or released before) is an error, [None]. *)
Definition handle : Type := object * object.

Definition handle_eqb (a b : handle) : bool :=
  Nat.eqb (fst a) (fst b) && Nat.eqb (snd a) (snd b).

Fixpoint take_out (h : handle) (held : list handle) : option (list handle) :=
  match held with
  | [] => None
  | h' :: held' =>
      if handle_eqb h h' then Some held'
      else option_map (cons h') (take_out h held')
  end.

Definition audit_step (held : list handle) (ob : obs) : option (list handle) :=
  match ob with
  | Obs (Request res) request => Some ((res, request) :: held)
  | Obs (Release res request) _ => take_out (res, request) held
  | Obs _ _ => Some held
  end.

Fixpoint audit (held : list handle) (tr : list obs) : option (list handle) :=
  match tr with
  | [] => Some held
  | ob :: tr' =>
      match audit_step held ob with
      | Some held' => audit held' tr'
      | None => None
      end
  end.

Definition finished {A : Type} (r : outcome A) : bool :=
  match r with
  | Returned _ => true
  | Unfinished => false
  end.

Definition completed {A : Type} (r : outcome A) : bool :=
  match r with
  | Returned (Normal _) => true
  | _ => false
  end.

(** One round of the arrival loop as it shows in a trace whose first call
    is number [i]: the timeout of 1/5, the suspension on it, one spawn. *)
Definition round (theater : Theater) (i : nat) (moviegoer : Z) : list obs :=
  [Obs (Timeout (1 # 5)) i; Obs (Yield i) Resumed;
   Obs (Process (GoToMovies moviegoer theater)) (2 + i)%nat].

Definition rounds (theater : Theater) (i : nat) (moviegoer : Z) (n : nat) : list obs :=
  flat_map (fun k => round theater (i + 3 * k) (moviegoer + Z.of_nat k)) (seq 0 n).

Definition never_thrown (o : oracle) : Prop := forall j, resume o j = Resumed.

(** ** A whole run: processes sharing [wait_times] *)

(** A process of a run: the generator it executes, what its surroundings
    answer, the number of its first call, and how far the engine let it
    get. *)
Record proc : Type := mkProc {
  code : generator;
  surroundings : oracle;
  first_call : nat;
  steps : nat
}.

Definition trace_of (p : proc) : list obs :=
  fst (run (steps p) (surroundings p) (first_call p) (body (code p))).

Definition outcome_of (p : proc) : outcome unit :=
  snd (run (steps p) (surroundings p) (first_call p) (body (code p))).

(** A moviegoer that went through the whole of [go_to_movies]. *)
Definition moviegoer_done (p : proc) : bool :=
  match code p with
  | GoToMovies _ _ => completed (outcome_of p)
  | _ => false
  end.

(** The next call of process number [k], if it has one left. *)
Fixpoint take_call (k : nat) (trs : list (list obs)) : option (obs * list (list obs)) :=
  match trs, k with
  | [], _ => None
  | [] :: _, O => None
  | (ob :: tr) :: trs', O => Some (ob, tr :: trs')
  | tr :: trs', S k' =>
      match take_call k' trs' with
      | Some (ob, rest) => Some (ob, tr :: rest)
      | None => None
      end
  end.

(** The engine lets the processes make their calls in some order, the
    schedule; every call acts on the one list [wait_times].  The result is
    the list and the calls not made. *)
Fixpoint replay (schedule : list nat) (trs : list (list obs)) (wait_times : list Q)
  : list Q * list (list obs) :=
  match schedule with
  | [] => (wait_times, trs)
  | k :: schedule' =>
      match take_call k trs with
      | Some (ob, trs') => replay schedule' trs' (wait_times ++ sample_of ob)
      | None => replay schedule' trs wait_times
      end
  end.

(** ** Surroundings and runs to try things on *)

Definition calm : oracle := mkOracle (fun i => inject_Z (Z.of_nat i)) (fun _ => 1 # 2) (fun _ => Resumed).

Definition theater0 := mkTheater 100%nat 101%nat 102%nat.

Definition two_moviegoers : list proc :=
  [mkProc (GoToMovies 7 theater0) calm 0 20; mkProc (GoToMovies 8 theater0) calm 0 5].

Definition turn_by_turn : list nat := List.concat (repeat [0; 1]%nat 14).

(** The exceptions thrown in at the yields. *)
Definition thrown_of (ob : obs) : list exn :=
  match ob with
  | Obs e x =>
      match e in simE X return X -> list exn with
      | Yield _ => fun r => match r with
                            | Thrown ex => [ex]
                            | Resumed => []
                            end
      | _ => fun _ => []
      end x
  end.

Definition thrown (tr : list obs) : list exn := flat_map thrown_of tr.

(** One station as it shows in the trace of a moviegoer that gets through
    it, the first call being number [i]: the request, the wait for it, the
    sub-process, the wait for it, the release. *)
Definition visit (res : object) (g : generator) (i : nat) : list obs :=
  [Obs (Request res) i; Obs (Yield i) Resumed; Obs (Process g) (2 + i)%nat;
   Obs (Yield (2 + i)%nat) Resumed; Obs (Release res i) tt].

(** The calls by which [run_theater] opens, the first being number [i]: the
    three resources and the five moviegoers 0..4. *)
Definition opening (num_cashiers num_servers num_ushers : Z) (i : nat) : list obs :=
  [Obs (NewResource num_cashiers) i; Obs (NewResource num_servers) (1 + i)%nat;
   Obs (NewResource num_ushers) (2 + i)%nat] ++
  map (fun k => Obs (Process (GoToMovies (Z.of_nat k) (mkTheater i (1 + i)%nat (2 + i)%nat)))
                 (3 + k + i)%nat)
    (seq 0 5).

(** Two results of [get_average_wait_time] that agree, and likewise of
    [calculate_wait_time]: the same numbers, or the same exception. *)
Definition same_average (r r' : result Q) : Prop :=
  match r, r' with
  | Normal a, Normal a' => a == a'
  | Raised e, Raised e' => e = e'
  | _, _ => False
  end.

Definition same_time (r r' : result (Q * Q)) : Prop :=
  match r, r' with
  | Normal (minutes, seconds), Normal (minutes', seconds') =>
      minutes = minutes' /\ seconds == seconds'
  | Raised e, Raised e' => e = e'
  | _, _ => False
  end.

(** Nothing is thrown in at the [n] calls from number [first] on. *)
Definition peaceful (o : oracle) (first n : nat) : Prop :=
  forall j, (first <= j < first + n)%nat -> resume o j = Resumed.

(** A clock that never goes back. *)
Definition monotone_clock (o : oracle) : Prop :=
  forall j k, (j <= k)%nat -> clock o j <= clock o k.

(** Surroundings like [calm] that throw [e] in at call number [at_call]. *)
Definition interrupted (at_call : nat) (e : exn) : oracle :=
  mkOracle (fun i => inject_Z (Z.of_nat i)) (fun _ => 1 # 2)
    (fun j => if Nat.eqb j at_call then Thrown e else Resumed).

(** Surroundings like [calm] whose draws are 1/4. *)
Definition hungry : oracle :=
  mkOracle (fun i => inject_Z (Z.of_nat i)) (fun _ => 1 # 4) (fun _ => Resumed).

(** ** The engine's resource pool *)

Module ResourcePool.

(** Modelled from the spec: the Resource Pool of the engine (simpy, which
    the script imports; it is not among the sources).  A pool has a fixed
    capacity, the count of units held and the FIFO queue of the requests
    that wait. *)
Record pool : Type := mkPool {
  capacity : Z;
  held_count : Z;
  wait_queue : list nat
}.

Inductive error : Type :=
| ResourceMisuse.

(** What the pool is asked to do; a request is named by a number. *)
Inductive op : Type :=
| Acquire (request : nat)
| Release.

(** Modelled from the spec: a pool is created with its capacity, nothing
    held and nobody waiting. *)
Definition create (capacity : Z) : pool := mkPool capacity 0 [].

(** Modelled from the spec: acquire grants at once when
    [held_count < capacity] ([held_count += 1]); otherwise the request
    goes to the tail of [wait_queue].  The result is the new pool and the
    requests granted by the operation. *)
Definition acquire (request : nat) (p : pool) : pool * list nat :=
  if (held_count p <? capacity p)%Z
  then (mkPool (capacity p) (held_count p + 1) (wait_queue p), [request])
  else (mkPool (capacity p) (held_count p) (wait_queue p ++ [request]), []).

(** Modelled from the spec: release does [held_count -= 1]; if
    [wait_queue] is not empty it pops the head and grants it
    ([held_count += 1] again).  Releasing more often than acquired is the
    contract violation ResourceMisuse, fatal to the run. *)
Definition release (p : pool) : error + pool * list nat :=
  if (held_count p <=? 0)%Z then inl ResourceMisuse
  else
    let held := (held_count p - 1)%Z in
    match wait_queue p with
    | [] => inr (mkPool (capacity p) held [], [])
    | request :: waiting => inr (mkPool (capacity p) (held + 1) waiting, [request])
    end.

Definition step (p : pool) (o : op) : error + pool * list nat :=
  match o with
  | Acquire request => inr (acquire request p)
  | Release => release p
  end.

(** The pools passed through, the first included, and the requests
    granted, in order, by a sequence of operations; the run ends at the
    first error. *)
Fixpoint states (p : pool) (ops : list op) : list pool :=
  p :: match ops with
       | [] => []
       | o :: ops' =>
           match step p o with
           | inl _ => []
           | inr (p', _) => states p' ops'
           end
       end.

Fixpoint grants (p : pool) (ops : list op) : list nat :=
  match ops with
  | [] => []
  | o :: ops' =>
      match step p o with
      | inl _ => []
      | inr (p', granted) => granted ++ grants p' ops'
      end
  end.

(** The requests issued, in the order of issue, by the operations carried
    out (those before the first error). *)
Fixpoint issued (p : pool) (ops : list op) : list nat :=
  match ops with
  | [] => []
  | o :: ops' =>
      match step p o with
      | inl _ => []
      | inr (p', _) =>
          match o with
          | Acquire request => request :: issued p' ops'
          | Release => issued p' ops'
          end
      end
  end.

(** The pool a sequence of operations ends in. *)
Definition after_ops (p : pool) (ops : list op) : pool := last (states p ops) p.

Definition within_capacity (C : Z) (p : pool) : Prop :=
  capacity p = C /\ (0 <= held_count p <= C)%Z.

(** While somebody waits, the pool is full. *)
Definition full_while_waiting (p : pool) : Prop :=
  wait_queue p <> [] -> (capacity p <= held_count p)%Z.

End ResourcePool.

(** ** The engine's scheduler *)

Module Scheduler.

(** Modelled from the spec: an Event of the engine (simpy, which the
    script imports; it is not among the sources): the time it is due, the
    tie-breaking sequence number and the process to resume. *)
Record event : Type := mkEvent {
  scheduled_time : Q;
  sequence_id : nat;
  process : nat
}.

(** Modelled from the spec: the Scheduler owns the Clock and the Event
    Queue, kept in the order of (scheduled_time, sequence_id); it knows
    the processes that are suspended. *)
Record scheduler : Type := mkScheduler {
  clock : Q;
  event_queue : list event;
  next_sequence_id : nat;
  suspended : list nat
}.

Inductive error : Type :=
| InvalidDelay.

(** Is [a] due before [b]? *)
Definition before (a b : event) : bool :=
  match scheduled_time a ?= scheduled_time b with
  | Lt => true
  | Eq => Nat.ltb (sequence_id a) (sequence_id b)
  | Gt => false
  end.

Fixpoint insert (e : event) (queue : list event) : list event :=
  match queue with
  | [] => [e]
  | e' :: queue' => if before e e' then e :: queue else e' :: insert e queue'
  end.

(** Modelled from the spec: [schedule_timeout(process, delay)] fails with
    InvalidDelay if [delay < 0], rejected at the call; otherwise it
    inserts an Event at [clock + delay] and the process is suspended.
    The result is the outcome together with the scheduler afterwards. *)
Definition schedule_timeout (p : nat) (delay : Q) (s : scheduler)
  : (error + unit) * scheduler :=
  match delay ?= 0 with
  | Lt => (inl InvalidDelay, s)
  | _ =>
      (inr tt,
       mkScheduler (clock s)
         (insert (mkEvent (clock s + delay) (next_sequence_id s) p) (event_queue s))
         (S (next_sequence_id s))
         (p :: suspended s))
  end.

End Scheduler.

(** ** Stepping through a run *)

Section RunEquations.
Context {A : Type} (o : oracle) (i : nat) (t : gen A).

Lemma run_ret fuel r :
  observe t = RetF r -> run fuel o i t = ([], Returned r).
Proof. intros H; destruct fuel; cbn; rewrite H; reflexivity. Qed.

Lemma run_stop X (e : simE X) k :
  observe t = VisF e k -> run 0 o i t = ([], Unfinished).
Proof. intros H; cbn; rewrite H; reflexivity. Qed.

Lemma run_stop_tau t' :
  observe t = TauF t' -> run 0 o i t = ([], Unfinished).
Proof. intros H; cbn; rewrite H; reflexivity. Qed.

Lemma run_vis fuel X (e : simE X) k :
  observe t = VisF e k ->
  run (S fuel) o i t =
  after (Obs e (answer o i e)) (run fuel o (S i) (k (answer o i e))).
Proof.
  intros H; cbn; rewrite H; reflexivity.
Qed.

Lemma run_tau fuel t' :
  observe t = TauF t' -> run (S fuel) o i t = run fuel o i t'.
Proof. intros H; cbn; rewrite H; reflexivity. Qed.

End RunEquations.

Lemma run_observe {A : Type} (fuel : nat) (o : oracle) (i : nat) (t t' : gen A) :
  observe t = observe t' -> run fuel o i t = run fuel o i t'.
Proof.
  intros H; destruct fuel; cbn; rewrite H; reflexivity.
Qed.

Lemma run_returned_mono {A : Type} (fuel : nat) :
  forall (o : oracle) (i : nat) (t : gen A) (r : result A) (fuel' : nat),
  snd (run fuel o i t) = Returned r -> (fuel <= fuel')%nat ->
  snd (run fuel' o i t) = Returned r.
Proof.
  induction fuel as [|fuel IH]; intros o i t r fuel' H Hle.
  - cbn in H. destruct fuel'; cbn; destruct (observe t); cbn in *; congruence.
  - destruct fuel' as [|fuel']; [lia |].
    cbn in *. destruct (observe t) as [r0 | t' | X e k]; [assumption | |].
    + apply IH with (fuel' := fuel') in H; [assumption | lia].
    + destruct (run fuel o (S i) (k (answer o i e))) as [tr1 r1] eqn:E1.
      destruct (run fuel' o (S i) (k (answer o i e))) as [tr2 r2] eqn:E2.
      cbn in *. subst r1.
      pose proof (IH o (S i) (k (answer o i e)) r fuel') as H'.
      rewrite E1, E2 in H'. apply H'; [reflexivity | lia].
Qed.

Lemma fst_after {A : Type} (ob : obs) (p : list obs * outcome A) :
  fst (after ob p) = ob :: fst p.
Proof. destruct p; reflexivity. Qed.

Lemma snd_after {A : Type} (ob : obs) (p : list obs * outcome A) :
  snd (after ob p) = snd p.
Proof. destruct p; reflexivity. Qed.

(** ** Facts on the bookkeeping, the draw and the rounds *)

Lemma take_out_head (h : handle) (held : list handle) :
  take_out h (h :: held) = Some held.
Proof.
  cbn. unfold handle_eqb. now rewrite !Nat.eqb_refl.
Qed.

(** With the weights of the script, the choice is 'food' exactly when the
    draw is below 2/5. *)
Lemma pick_food (u : Q) :
  pick food_list [2 # 5; 3 # 5] u =
  if Qle_bool (2 # 5) u then ["no_food"%string] else ["food"%string].
Proof.
  unfold pick, food_list. cbn [accumulate accumulate_from last List.length Nat.sub bisect].
  replace (Qle_bool (0 + (2 # 5)) (u * (0 + (2 # 5) + (3 # 5)))) with (Qle_bool (2 # 5) u).
  - destruct (Qle_bool (2 # 5) u); reflexivity.
  - apply eq_true_iff_eq. rewrite !Qle_bool_iff.
    assert (E : u * (0 + (2 # 5) + (3 # 5)) == u) by ring.
    rewrite E. assert (E' : 0 + (2 # 5) == 2 # 5) by ring. rewrite E'. reflexivity.
Qed.

Lemma food_iff (u : Q) :
  str_in "food" (pick food_list [2 # 5; 3 # 5] u) = true <-> u < 2 # 5.
Proof.
  rewrite pick_food. destruct (Qle_bool (2 # 5) u) eqn:E; cbn.
  - apply Qle_bool_iff in E. split; [discriminate | intros H; exfalso; lra].
  - split; [intros _ | reflexivity].
    apply Qnot_le_lt. intros H. apply Qle_bool_iff in H. congruence.
Qed.

Lemma Qdiv_1 (x : Q) : x / 1 == x.
Proof. field. Qed.

Lemma rounds_S theater i moviegoer n :
  rounds theater i moviegoer (S n) =
  round theater i moviegoer ++ rounds theater (3 + i) (moviegoer + 1) n.
Proof.
  unfold rounds. cbn [seq flat_map]. rewrite <- seq_shift, flat_map_concat_map, map_map.
  rewrite <- flat_map_concat_map.
  f_equal.
  - f_equal; [lia | cbn; lia].
  - apply flat_map_ext. intros k. f_equal; lia.
Qed.

(** ** Symbolic execution *)

#[local] Opaque run pick str_in.
#[local] Arguments pick _ _ _ : simpl never.
#[local] Arguments str_in _ _ : simpl never.
#[local] Arguments Qle_bool _ _ : simpl never.
#[local] Arguments Qmult _ _ : simpl never.
#[local] Arguments Qplus _ _ : simpl never.
#[local] Arguments Qminus _ _ : simpl never.

Ltac obs_now := cbn; reflexivity.

(** One step of a run whose next call is known; otherwise a case split on
    what decides it: how a [yield] is resumed, a test in the code, or
    whether any fuel is left. *)
Ltac run_step :=
  first
    [ erewrite run_ret by obs_now
    | erewrite run_stop by obs_now
    | erewrite run_stop_tau by obs_now
    | erewrite run_vis by obs_now; cbn [answer]
    | erewrite run_tau by obs_now
    | match goal with
      | |- context [resume ?o ?i] => destruct (resume o i) eqn:?
      end
    | match goal with
      | |- context [run ?fuel ?o ?i ?t] =>
          let ot := eval hnf in (observe t) in
          match ot with
          | context [if ?c then _ else _] =>
              rewrite (run_observe fuel o i t (go ot) eq_refl);
              destruct c eqn:?
          end
      end
    | match goal with
      | |- context [run ?fuel _ _ _] => is_var fuel; destruct fuel as [|fuel]
      end ].

Ltac run_all := repeat run_step; cbn [after].

(** ** The moviegoer *)

(** C5.  Whatever the engine does (resume or throw at any [yield], stop the
    run anywhere), a moviegoer releases only requests it holds, so never
    twice, and when it has left [go_to_movies], normally or by an exception,
    it holds none; it does leave within 19 steps. *)
Theorem go_to_movies_releases (o : oracle) (i : nat) (moviegoer : Z) (theater : Theater)
    (fuel : nat) :
  let (tr, r) := run fuel o i (go_to_movies moviegoer theater) in
  (exists held, audit [] tr = Some held /\ (finished r = true -> held = []))
  /\ ((19 <= fuel)%nat -> finished r = true).
Proof.
  run_all.
  all: cbn [audit audit_step]; rewrite ?take_out_head; cbn [audit audit_step].
  all: rewrite ?take_out_head; cbn [audit audit_step]; rewrite ?take_out_head.
  all: split; [eexists; split; [reflexivity | cbn; congruence] | cbn; first [reflexivity | lia]].
Qed.

(** C7.  The ticket purchase draws random.uniform(1, 3), that is
    [1 + (3-1) * u] for the [u] in [0, 1) that random() gives, makes the
    timeout of exactly that delay, and suspends on it; the delay lies
    between 1 and 3. *)
Theorem purchase_ticket_delay (o : oracle) (i : nat) (theater : Theater) (moviegoer : Z)
    (fuel : nat) :
  0 <= draw o i -> draw o i < 1 -> (3 <= fuel)%nat ->
  let d := 1 + (3 - 1) * draw o i in
  fst (run fuel o i (purchase_ticket theater moviegoer)) =
    [Obs Random (draw o i); Obs (Timeout d) (S i); Obs (Yield (S i)) (resume o (S (S i)))]
  /\ 1 <= d /\ d <= 3.
Proof.
  intros H0 H1 Hfuel d. split; [| subst d; split; lra].
  do 3 (destruct fuel as [|fuel]; [lia |]).
  unfold purchase_ticket, uniform.
  do 3 run_step. fold d.
  destruct (resume o (S (S i))); run_step; reflexivity.
Qed.

Lemma purchase_ticket_delay_witness :
  fst (run 3 calm 0 (purchase_ticket theater0 7)) =
    [Obs Random (1 # 2); Obs (Timeout (1 + (3 - 1) * (1 # 2))) 1%nat; Obs (Yield 1%nat) Resumed]
  /\ 1 <= 1 + (3 - 1) * (1 # 2) /\ 1 + (3 - 1) * (1 # 2) <= 3.
Proof.
  apply (purchase_ticket_delay calm 0 theater0 7 3); cbn; [discriminate | reflexivity | lia].
Defined.

(** C8.  A moviegoer into which nothing is thrown before makes, as its
    twelfth call, the one draw of random.choices with weights 2/5 and
    3/5, and one that is left in peace to the end completes.  Whatever the
    engine does, it makes no other draw, and the choice is 'food' exactly
    when the draw is below 2/5.  Before the draw the server is not
    touched.  On 'food' the server is requested next, a moviegoer that
    leaves has requested and released it once, and one that completes has
    had food sold; on 'no_food' the server is never touched, no food is
    sold and the moviegoer completes. *)
Theorem server_iff_food (o : oracle) (i : nat) (moviegoer : Z) (theater : Theater)
    (fuel : nat) :
  server theater <> cashier theater -> server theater <> usher theater ->
  let (tr, r) := run fuel o i (go_to_movies moviegoer theater) in
  (peaceful o i 11 -> (12 <= fuel)%nat ->
   draws tr = [draw o (11 + i)%nat] /\
   nth_error tr 11 = Some (Obs Random (draw o (11 + i)%nat))) /\
  (peaceful o i 17 -> (19 <= fuel)%nat -> completed r = true) /\
  match draws tr with
  | [] => uses (server theater) tr = [] /\ ~ In (SellFood theater moviegoer) (spawns tr)
  | [u] =>
      (str_in "food" (pick food_list [2 # 5; 3 # 5] u) = true <-> u < 2 # 5) /\
      if str_in "food" (pick food_list [2 # 5; 3 # 5] u)
      then
        ((13 <= fuel)%nat -> In (Obs (Request (server theater)) (12 + i)%nat) tr) /\
        (finished r = true ->
         uses (server theater) tr =
           [Obs (Request (server theater)) (12 + i)%nat;
            Obs (Release (server theater) (12 + i)%nat) tt]) /\
        (completed r = true -> In (SellFood theater moviegoer) (spawns tr))
      else
        uses (server theater) tr = [] /\
        ~ In (SellFood theater moviegoer) (spawns tr) /\
        ((14 <= fuel)%nat -> r = Returned (Normal tt))
  | _ => False
  end.
Proof.
  intros Hc Hu.
  apply Nat.eqb_neq in Hc, Hu.
  rewrite Nat.eqb_sym in Hc. rewrite Nat.eqb_sym in Hu.
  run_all.
  all: split; [| split].
  all: try (intros Hp Hfuel;
            first [ lia
                  | match goal with
                    | H : resume _ ?k = Thrown _ |- _ =>
                        rewrite (Hp k) in H by lia; discriminate H
                    end
                  | split; reflexivity
                  | reflexivity ]).
  all: cbn [draws draw_of flat_map app].
  all: try match goal with
       | H : str_in _ (pick _ _ ?u) = _ |- _ => rewrite H
       end.
  all: unfold uses; cbn [filter touches spawns spawn_of flat_map app In Nat.add];
       rewrite ?Hc, ?Hu, ?Nat.eqb_refl.
  all: repeat split; try apply food_iff; try (intros; lia); try reflexivity;
       try (cbn; intros; discriminate); try (intros; cbn; tauto).
  all: try (intros [E | E]; [discriminate E | tauto]).
  all: try (intros [E | [E | E]]; [discriminate E .. | tauto]).
  all: match goal with
       | H : str_in _ _ = _ |- _ => rewrite <- H; intros; now apply food_iff
       end.
Qed.

Lemma server_iff_food_witness :
  let (tr, r) := run 20 hungry 0 (go_to_movies 7 theater0) in
  draws tr = [1 # 4] /\
  nth_error tr 11 = Some (Obs Random (1 # 4)) /\
  completed r = true /\
  (1 # 4) < (2 # 5) /\
  str_in "food" (pick food_list [2 # 5; 3 # 5] (1 # 4)) = true /\
  In (Obs (Request 101%nat) 12%nat) tr /\
  uses 101%nat tr = [Obs (Request 101%nat) 12%nat; Obs (Release 101%nat 12%nat) tt] /\
  In (SellFood theater0 7) (spawns tr).
Proof.
  pose proof (server_iff_food hungry 0 7 theater0 20) as H.
  destruct (run 20 hungry 0 (go_to_movies 7 theater0)) as [tr r].
  assert (Hp : forall n, peaceful hungry 0 n) by (intros n j _; reflexivity).
  destruct H as (Hdraw & Hdone & H); [discriminate | discriminate |].
  destruct (Hdraw (Hp 11%nat) ltac:(lia)) as [Hd Hn].
  specialize (Hdone (Hp 17%nat) ltac:(lia)).
  rewrite Hd in H. cbn [draw hungry Nat.add] in H.
  destruct H as [Hiff H].
  assert (Hlt : (1 # 4) < (2 # 5)) by reflexivity.
  assert (Hfood : str_in "food" (pick food_list [2 # 5; 3 # 5] (1 # 4)) = true)
    by (apply Hiff; exact Hlt).
  rewrite Hfood in H. destruct H as (Hreq & Huses & Hsold).
  refine (conj Hd (conj Hn (conj Hdone (conj Hlt (conj Hfood (conj _ (conj _ _))))))).
  - apply Hreq. lia.
  - apply Huses. destruct r as [[|]|]; [reflexivity | discriminate Hdone | discriminate Hdone].
  - apply Hsold. exact Hdone.
Defined.

(** ** The arrivals *)

Lemma loop_rounds (o : oracle) (theater : Theater) (n : nat) :
  never_thrown o ->
  forall i moviegoer,
  run (4 * n) o i (ITree.iter (arrive theater) moviegoer) =
  (rounds theater i (moviegoer + 1) n, Unfinished).
Proof.
  intros Ho. induction n as [|n IH]; intros i moviegoer.
  - cbn [Nat.mul]. run_step. reflexivity.
  - replace (4 * S n)%nat with (S (S (S (S (4 * n))))) by lia.
    do 2 run_step. rewrite Ho. do 2 run_step.
    rewrite IH, rounds_S. reflexivity.
Qed.

(** C1.  Unless an exception is thrown into it, [run_theater] makes the
    three resources, spawns the five moviegoers 0..4 before it suspends at
    all, and then goes round for ever: each round is a timeout of 1/5, a
    suspension on it and one spawn, of moviegoers 5, 6, 7, ...; it never
    returns, so only the engine ends it. *)
Theorem run_theater_arrivals (o : oracle) (i : nat) (num_cashiers num_servers num_ushers : Z)
    (n : nat) :
  never_thrown o ->
  let theater := mkTheater i (1 + i)%nat (2 + i)%nat in
  run (8 + 4 * n) o i (run_theater num_cashiers num_servers num_ushers) =
    ([Obs (NewResource num_cashiers) i; Obs (NewResource num_servers) (1 + i)%nat;
      Obs (NewResource num_ushers) (2 + i)%nat] ++
     map (fun k => Obs (Process (GoToMovies (Z.of_nat k) theater)) (3 + k + i)%nat) (seq 0 5) ++
     rounds theater (8 + i)%nat 5 n,
     Unfinished)
  /\ forall fuel, snd (run fuel o i (run_theater num_cashiers num_servers num_ushers)) = Unfinished.
Proof.
  intros Ho theater.
  assert (E : forall n, run (8 + 4 * n) o i (run_theater num_cashiers num_servers num_ushers) =
    ([Obs (NewResource num_cashiers) i; Obs (NewResource num_servers) (1 + i)%nat;
      Obs (NewResource num_ushers) (2 + i)%nat] ++
     map (fun k => Obs (Process (GoToMovies (Z.of_nat k) theater)) (3 + k + i)%nat) (seq 0 5) ++
     rounds theater (8 + i)%nat 5 n,
     Unfinished)).
  { clear n. intros n.
    change (8 + 4 * n)%nat with (S (S (S (S (S (S (S (S (4 * n))))))))).
    do 8 run_step.
    erewrite run_observe with (t' := ITree.iter (arrive theater) 4%Z) by (cbn; reflexivity).
    rewrite (loop_rounds o theater n Ho). reflexivity. }
  split; [apply E |].
  intros fuel.
  destruct (snd (run fuel o i (run_theater num_cashiers num_servers num_ushers))) as [r |] eqn:Hr;
    [| reflexivity].
  apply run_returned_mono with (fuel' := (8 + 4 * fuel)%nat) in Hr; [| lia].
  rewrite E in Hr. discriminate.
Qed.

Lemma calm_never_thrown : never_thrown calm.
Proof. intros j. reflexivity. Qed.

Lemma run_theater_arrivals_witness :
  never_thrown calm /\
  run (8 + 4 * 2) calm 0 (run_theater 3 2 1) =
    ([Obs (NewResource 3) 0%nat; Obs (NewResource 2) 1%nat; Obs (NewResource 1) 2%nat] ++
     map (fun k => Obs (Process (GoToMovies (Z.of_nat k) (mkTheater 0%nat 1%nat 2%nat))) (3 + k + 0)%nat)
       (seq 0 5) ++
     rounds (mkTheater 0%nat 1%nat 2%nat) 8%nat 5 2,
     Unfinished).
Proof.
  split; [exact calm_never_thrown |].
  apply (run_theater_arrivals calm 0 3 2 1 2 calm_never_thrown).
Defined.

(** ** The samples *)

(** A moviegoer that completes has read the clock twice: first of all on
    arrival, and again just before its last call, which appends the
    difference of the two readings; in between it neither reads the clock
    nor appends.  One that has not completed has appended nothing. *)
Lemma go_to_movies_samples (o : oracle) (i : nat) (moviegoer : Z) (theater : Theater)
    (fuel : nat) :
  let (tr, r) := run fuel o i (go_to_movies moviegoer theater) in
  if completed r
  then exists t_end middle,
         tr = Obs Now (clock o i) :: middle ++
              [Obs Now t_end; Obs (Append (t_end - clock o i)) tt] /\
         nows middle = [] /\ samples middle = [] /\
         t_end = clock o (S (List.length middle) + i)%nat /\
         nows tr = [clock o i; t_end] /\
         samples tr = [t_end - clock o i]
  else samples tr = [].
Proof.
  run_all.
  all: cbn [completed].
  all: try reflexivity.
  all: match goal with
       | |- exists t_end middle, _ :: ?l = _ /\ _ =>
           eexists; exists (removelast (removelast l))
       end.
  all: cbn [removelast app]; repeat split; reflexivity.
Qed.

Lemma arrival_loop_silent (theater : Theater) (fuel : nat) :
  forall (o : oracle) (i : nat) (moviegoer : Z),
  samples (fst (run fuel o i (ITree.iter (arrive theater) moviegoer))) = [].
Proof.
  induction fuel as [fuel IH] using lt_wf_ind. intros o i moviegoer.
  destruct fuel as [|fuel]; [run_step; reflexivity |].
  run_step. rewrite fst_after.
  destruct fuel as [|fuel]; [run_step; reflexivity |].
  run_step. rewrite fst_after.
  destruct (resume o (S i)).
  - destruct fuel as [|fuel]; [run_step; reflexivity |].
    run_step. rewrite fst_after.
    destruct fuel as [|fuel]; [run_step; reflexivity |].
    run_step. cbn [samples flat_map sample_of app]. apply IH. lia.
  - run_step. reflexivity.
Qed.

Lemma run_theater_silent (o : oracle) (i : nat) (c s u : Z) (fuel : nat) :
  samples (fst (run fuel o i (run_theater c s u))) = [].
Proof.
  do 8 (destruct fuel as [|fuel]; [run_all; reflexivity |]; run_step; rewrite fst_after).
  erewrite run_observe
    with (t' := ITree.iter (arrive (mkTheater i (S i) (S (S i)))) 4%Z) by (cbn; reflexivity).
  cbn [samples flat_map sample_of app]. apply arrival_loop_silent.
Qed.

(** Only [go_to_movies] appends; it does so once, when it completes. *)
Lemma samples_of_body (g : generator) (o : oracle) (i : nat) (fuel : nat) :
  List.length (samples (fst (run fuel o i (body g)))) =
  match g with
  | GoToMovies _ _ => if completed (snd (run fuel o i (body g))) then 1%nat else 0%nat
  | _ => 0%nat
  end.
Proof.
  destruct g as [m th | th m | th m | th m | c s u]; cbn [body].
  - pose proof (go_to_movies_samples o i m th fuel) as H.
    destruct (run fuel o i (go_to_movies m th)) as [tr r]. cbn [fst snd].
    destruct (completed r).
    + destruct H as (t_end & middle & _ & _ & _ & _ & _ & ->). reflexivity.
    + rewrite H. reflexivity.
  - unfold purchase_ticket, uniform. run_all; reflexivity.
  - unfold check_ticket. run_all; reflexivity.
  - unfold sell_food, uniform. run_all; reflexivity.
  - rewrite run_theater_silent. reflexivity.
Qed.

Lemma take_call_samples (k : nat) :
  forall trs ob trs',
  take_call k trs = Some (ob, trs') ->
  Permutation (flat_map samples trs) (sample_of ob ++ flat_map samples trs').
Proof.
  induction k as [|k IH]; intros trs ob trs' H.
  - destruct trs as [|[|ob' tr] trs]; try discriminate.
    cbn in H. injection H as <- <-. cbn. rewrite <- app_assoc. reflexivity.
  - destruct trs as [|tr trs]; [discriminate |].
    assert (H' : match take_call k trs with
                 | Some (ob, rest) => Some (ob, tr :: rest)
                 | None => None
                 end = Some (ob, trs')) by (destruct tr; exact H).
    destruct (take_call k trs) as [[ob' rest] |] eqn:E; [| discriminate].
    injection H' as <- <-. cbn [flat_map].
    rewrite (IH _ _ _ E). rewrite !app_assoc.
    apply Permutation_app_tail, Permutation_app_comm.
Qed.

Lemma replay_samples (schedule : list nat) :
  forall trs wait_times,
  Permutation
    (fst (replay schedule trs wait_times) ++ flat_map samples (snd (replay schedule trs wait_times)))
    (wait_times ++ flat_map samples trs).
Proof.
  induction schedule as [|k schedule IH]; intros trs wait_times; [reflexivity |].
  cbn [replay]. destruct (take_call k trs) as [[ob trs'] |] eqn:E; [| apply IH].
  rewrite IH, <- app_assoc. apply Permutation_app_head.
  symmetry. apply take_call_samples with (k := k). exact E.
Qed.

Lemma samples_count (ps : list proc) :
  List.length (flat_map samples (map trace_of ps)) = List.length (filter moviegoer_done ps).
Proof.
  induction ps as [|p ps IH]; [reflexivity |].
  cbn [map flat_map filter]. rewrite length_app, IH.
  unfold trace_of, moviegoer_done, outcome_of. rewrite samples_of_body.
  destruct (code p); cbn [body]; try reflexivity.
  destruct (completed _); reflexivity.
Qed.

Lemma all_made_samples (rest : list (list obs)) :
  Forall (fun tr => tr = []) rest -> flat_map samples rest = [].
Proof.
  induction 1 as [|tr rest -> _ IH]; [reflexivity | exact IH].
Qed.

(** C2.  Take any processes running generators of the script, however far
    each got, and any order in which the engine lets them make their
    calls, [wait_times] being empty at the start.  Once every call is
    made, the list has one sample for each moviegoer that went through the
    whole of [go_to_movies] and no other.  Such a moviegoer made these
    calls: first of all it read the clock, on arrival; its last call but
    one read the clock again, at completion; its last call appended the
    second reading minus the first; in between it neither read the clock
    nor appended. *)
Theorem wait_times_samples (ps : list proc) (schedule : list nat) :
  let (wait_times, rest) := replay schedule (map trace_of ps) [] in
  Forall (fun tr => tr = []) rest ->
  List.length wait_times = List.length (filter moviegoer_done ps) /\
  Permutation wait_times (flat_map (fun p => samples (trace_of p)) ps) /\
  forall p, In p ps ->
    if moviegoer_done p
    then exists t_end middle,
           let t_arrival := clock (surroundings p) (first_call p) in
           trace_of p = Obs Now t_arrival :: middle ++
                        [Obs Now t_end; Obs (Append (t_end - t_arrival)) tt] /\
           nows middle = [] /\ samples middle = [] /\
           t_end = clock (surroundings p) (S (List.length middle) + first_call p)%nat /\
           nows (trace_of p) = [t_arrival; t_end] /\
           samples (trace_of p) = [t_end - t_arrival]
    else samples (trace_of p) = [].
Proof.
  pose proof (replay_samples schedule (map trace_of ps) []) as H.
  destruct (replay schedule (map trace_of ps) []) as [wait_times rest].
  cbn [fst snd app] in H. intros Hrest.
  rewrite (all_made_samples rest Hrest), app_nil_r in H.
  split; [| split].
  - rewrite (Permutation_length H). apply samples_count.
  - rewrite H, flat_map_concat_map, map_map, <- flat_map_concat_map. reflexivity.
  - intros p _. unfold moviegoer_done.
    pose proof (samples_of_body (code p) (surroundings p) (first_call p) (steps p)) as Hn.
    fold (trace_of p) in Hn. fold (outcome_of p) in Hn.
    destruct (code p) as [m th | th m | th m | th m | c s u] eqn:Ec;
      try (destruct (samples (trace_of p)); [reflexivity | discriminate Hn]).
    pose proof (go_to_movies_samples (surroundings p) (first_call p) m th (steps p)) as Hg.
    unfold trace_of, outcome_of. rewrite Ec. cbn [body].
    destruct (run (steps p) (surroundings p) (first_call p) (go_to_movies m th)) as [tr r].
    cbn [fst snd]. exact Hg.
Qed.

Lemma wait_times_samples_witness :
  let (wait_times, rest) := replay turn_by_turn (map trace_of two_moviegoers) [] in
  Forall (fun tr => tr = []) rest /\
  List.length wait_times = List.length (filter moviegoer_done two_moviegoers) /\
  Permutation wait_times (flat_map (fun p => samples (trace_of p)) two_moviegoers) /\
  forall p, In p two_moviegoers ->
    if moviegoer_done p
    then exists t_end middle,
           let t_arrival := clock (surroundings p) (first_call p) in
           trace_of p = Obs Now t_arrival :: middle ++
                        [Obs Now t_end; Obs (Append (t_end - t_arrival)) tt] /\
           nows middle = [] /\ samples middle = [] /\
           t_end = clock (surroundings p) (S (List.length middle) + first_call p)%nat /\
           nows (trace_of p) = [t_arrival; t_end] /\
           samples (trace_of p) = [t_end - t_arrival]
    else samples (trace_of p) = [].
Proof.
  pose proof (wait_times_samples two_moviegoers turn_by_turn) as H.
  destruct (replay turn_by_turn (map trace_of two_moviegoers) []) as [wait_times rest] eqn:E.
  assert (Hrest : Forall (fun tr => tr = []) rest).
  { vm_compute in E. injection E as <- <-. repeat constructor. }
  split; [exact Hrest | exact (H Hrest)].
Defined.

(** ** The averages *)

(** C9.  On a non-empty list [calculate_wait_time] returns the floor of the
    mean as minutes and the rest, times 60, as seconds; the two add up to
    the mean and the seconds lie in [0, 60). *)
Theorem calculate_wait_time_spec (wait_times : list Q) :
  wait_times <> [] ->
  exists average_wait minutes seconds,
    mean wait_times = Normal average_wait /\
    calculate_wait_time wait_times = Normal (minutes, seconds) /\
    minutes = inject_Z (Qfloor average_wait) /\
    seconds == (average_wait - minutes) * 60 /\
    minutes + seconds / 60 == average_wait /\
    0 <= seconds /\ seconds < 60.
Proof.
  intros Hne. unfold calculate_wait_time.
  destruct wait_times as [|x xs]; [contradiction |].
  cbn [mean]. set (average_wait := sum (x :: xs) / _).
  exists average_wait, (inject_Z (Qfloor average_wait)),
    ((average_wait - inject_Z (Qfloor (average_wait / 1)) * 1) * 60).
  assert (Ef : Qfloor (average_wait / 1) = Qfloor average_wait)
    by (apply Qfloor_comp, Qdiv_1).
  pose proof (Qfloor_le average_wait) as Hlo.
  pose proof (Qlt_floor average_wait) as Hhi.
  rewrite inject_Z_plus in Hhi. change (inject_Z 1) with 1 in Hhi.
  unfold divmod. rewrite Ef.
  repeat split; try reflexivity.
  - ring.
  - field.
  - lra.
  - lra.
Qed.

Lemma calculate_wait_time_spec_witness :
  [3 # 2; 2] <> [] /\
  exists average_wait minutes seconds,
    mean [3 # 2; 2] = Normal average_wait /\
    calculate_wait_time [3 # 2; 2] = Normal (minutes, seconds) /\
    minutes = inject_Z (Qfloor average_wait) /\
    seconds == (average_wait - minutes) * 60 /\
    minutes + seconds / 60 == average_wait /\
    0 <= seconds /\ seconds < 60.
Proof.
  split; [discriminate | apply calculate_wait_time_spec; discriminate].
Defined.

(** C10.  On the empty list both helpers raise StatisticsError, from
    statistics.mean; they return a value exactly on non-empty lists. *)
Theorem empty_wait_times_raise :
  get_average_wait_time [] = Raised StatisticsError /\
  calculate_wait_time [] = Raised StatisticsError /\
  forall wait_times,
    ((exists v, get_average_wait_time wait_times = Normal v) <-> wait_times <> []) /\
    ((exists v, calculate_wait_time wait_times = Normal v) <-> wait_times <> []).
Proof.
  split; [reflexivity | split; [reflexivity |]].
  intros [|x xs]; split; split.
  - intros [v H]. discriminate H.
  - intros H. contradiction.
  - intros [v H]. discriminate H.
  - intros H. contradiction.
  - discriminate.
  - intros _. eexists. reflexivity.
  - discriminate.
  - intros _. unfold calculate_wait_time. cbn [mean].
    destruct (divmod _ 1). eexists. reflexivity.
Qed.

(** ** The resource pool keeps within its capacity and serves in order *)

Module ResourcePoolFacts.
Import ResourcePool.

Section Preserved.
Variable P : pool -> Prop.
Hypothesis step_preserves :
  forall p p' o granted, P p -> step p o = inr (p', granted) -> P p'.

Lemma states_preserve (ops : list op) :
  forall p, P p -> Forall P (states p ops).
Proof.
  induction ops as [|o ops IH]; intros p Hp; cbn [states].
  - constructor; [assumption | constructor].
  - constructor; [assumption |].
    destruct (step p o) as [e | [p' granted]] eqn:E; [constructor |].
    apply IH. eapply step_preserves; eassumption.
Qed.

Lemma after_ops_preserve (ops : list op) (p : pool) :
  P p -> P (after_ops p ops).
Proof.
  intros Hp. unfold after_ops.
  pose proof (states_preserve ops p Hp) as H.
  induction H as [|x l Hx Hl IH]; [assumption |].
  destruct l; [assumption | exact IH].
Qed.

End Preserved.

Lemma step_within_capacity (C : Z) (p p' : pool) (o : op) (granted : list nat) :
  within_capacity C p -> step p o = inr (p', granted) -> within_capacity C p'.
Proof.
  intros [Hc Hh] H. destruct o as [request |]; cbn in H.
  - unfold acquire in H. destruct (held_count p <? capacity p)%Z eqn:E;
      injection H as <- _; split; cbn; try assumption.
    apply Z.ltb_lt in E. lia.
  - unfold release in H. destruct (held_count p <=? 0)%Z eqn:E; [discriminate |].
    apply Z.leb_gt in E.
    destruct (wait_queue p); injection H as <- _; split; cbn; try assumption; lia.
Qed.

(** C3.  Whatever is asked of a pool created with a positive capacity
    [C], every pool passed through keeps capacity [C] and has
    [0 <= held_count <= C]. *)
Theorem held_count_bounds (C : Z) (ops : list op) :
  (0 < C)%Z ->
  Forall (fun p => capacity p = C /\ (0 <= held_count p <= C)%Z) (states (create C) ops).
Proof.
  intros HC.
  apply (states_preserve (within_capacity C) (step_within_capacity C) ops (create C)).
  split; cbn; [reflexivity | lia].
Qed.

Lemma held_count_bounds_witness :
  (0 < 1)%Z /\
  Forall (fun p => capacity p = 1%Z /\ (0 <= held_count p <= 1)%Z)
    (states (create 1) [Acquire 1; Acquire 2; Release; Release; Release; Acquire 3]).
Proof.
  split; [lia | apply held_count_bounds; lia].
Defined.

Lemma step_full_while_waiting (p p' : pool) (o : op) (granted : list nat) :
  full_while_waiting p -> step p o = inr (p', granted) -> full_while_waiting p'.
Proof.
  unfold full_while_waiting. intros Hw H. destruct o as [request |]; cbn in H.
  - unfold acquire in H. destruct (held_count p <? capacity p)%Z eqn:E;
      injection H as <- _; cbn.
    + intros Hq. apply Hw in Hq. apply Z.ltb_lt in E. lia.
    + intros _. apply Z.ltb_ge in E. exact E.
  - unfold release in H. destruct (held_count p <=? 0)%Z eqn:E; [discriminate |].
    destruct (wait_queue p) as [|request waiting] eqn:Eq; injection H as <- _; cbn.
    + intros Hq. contradiction.
    + intros _. assert (Hc : (capacity p <= held_count p)%Z) by (apply Hw; discriminate).
      lia.
Qed.

Lemma last_default {A : Type} (l : list A) :
  forall x d d', last (x :: l) d = last (x :: l) d'.
Proof.
  induction l as [|y l IH]; intros x d d'; [reflexivity |].
  change (last (y :: l) d = last (y :: l) d'). apply IH.
Qed.

Lemma after_ops_step (p p' : pool) (o : op) (granted : list nat) (ops : list op) :
  step p o = inr (p', granted) -> after_ops p (o :: ops) = after_ops p' ops.
Proof.
  intros E. unfold after_ops. cbn [states]. rewrite E.
  assert (H : exists l, states p' ops = p' :: l) by (destruct ops; eexists; reflexivity).
  destruct H as [l ->].
  change (last (p' :: l) p = last (p' :: l) p'). apply last_default.
Qed.

Lemma after_ops_error (p : pool) (o : op) (e : error) (ops : list op) :
  step p o = inl e -> after_ops p (o :: ops) = p.
Proof.
  intros E. unfold after_ops. cbn [states]. rewrite E. reflexivity.
Qed.

(** The requests that wait, followed by those issued from now on, are
    those granted from now on followed by those that wait at the end:
    requests are granted in the order of issue. *)
Lemma issue_order (ops : list op) :
  forall p, full_while_waiting p ->
  wait_queue p ++ issued p ops = grants p ops ++ wait_queue (after_ops p ops).
Proof.
  induction ops as [|o ops IH]; intros p Hp.
  - cbn. apply app_nil_r.
  - cbn [issued grants].
    destruct (step p o) as [e | [p' granted]] eqn:E.
    + rewrite (after_ops_error p o e ops E). apply app_nil_r.
    + rewrite (after_ops_step p p' o granted ops E).
      pose proof (step_full_while_waiting p p' o granted Hp E) as Hp'.
      specialize (IH p' Hp'). rewrite <- app_assoc, <- IH.
      destruct o as [request |]; cbn in E.
      * unfold acquire in E. destruct (held_count p <? capacity p)%Z eqn:El;
          injection E as <- <-; cbn [wait_queue app].
        -- destruct (wait_queue p) as [|x q] eqn:Eq; [reflexivity |].
           assert (Hfull : (capacity p <= held_count p)%Z) by (apply Hp; rewrite Eq; discriminate).
           apply Z.ltb_lt in El. lia.
        -- rewrite <- app_assoc. reflexivity.
      * unfold release in E. destruct (held_count p <=? 0)%Z; [discriminate |].
        destruct (wait_queue p) as [|x q]; injection E as <- <-; reflexivity.
Qed.

Lemma nodup_pivot {A : Type} (x : A) :
  forall a c a' c', NoDup (a ++ x :: c) -> a ++ x :: c = a' ++ x :: c' -> a = a'.
Proof.
  induction a as [|y a IH]; intros c a' c' Hn H.
  - destruct a' as [|y' a']; [reflexivity |].
    injection H as <- H. exfalso.
    apply NoDup_cons_iff in Hn. apply (proj1 Hn). rewrite H. apply in_elt.
  - destruct a' as [|y' a'].
    + injection H as -> H. exfalso.
      apply NoDup_cons_iff in Hn. apply (proj1 Hn). apply in_elt.
    + injection H as <- H. f_equal.
      apply NoDup_cons_iff in Hn. apply (IH c a' c' (proj2 Hn) H).
Qed.

(** C4.  A pool of positive capacity grants in the order of issue,
    whatever is asked of it: the requests granted, in the order of the
    grants, followed by those that still wait, in the order of the queue,
    are the requests issued, in the order of issue.  So the request issued
    as number [n1] is granted before the one issued as number [n2 > n1]
    whenever that one is granted, and of two requests [R1] issued before
    [R2], [R1] is granted before [R2].  Where the pool has got to, a
    release grants the head of the wait queue and takes it off, and an
    acquire that has to wait joins the tail. *)
Theorem fifo_grants (C : Z) (ops : list op) :
  (0 < C)%Z ->
  let p := after_ops (create C) ops in
  let asked := issued (create C) ops in
  let granted := grants (create C) ops in
  asked = granted ++ wait_queue p /\
  (forall n1 n2 R1 R2, (n1 < n2)%nat ->
     nth_error asked n1 = Some R1 -> nth_error asked n2 = Some R2 ->
     (n2 < List.length granted)%nat ->
     nth_error granted n1 = Some R1 /\ nth_error granted n2 = Some R2) /\
  (NoDup asked ->
   forall R1 R2 a b c l1 l2,
     asked = a ++ R1 :: b ++ R2 :: c -> granted = l1 ++ R2 :: l2 -> In R1 l1) /\
  (forall R waiting, wait_queue p = R :: waiting ->
     (exists p', release p = inr (p', [R]) /\ wait_queue p' = waiting) /\
     forall request, acquire request p =
       (mkPool (capacity p) (held_count p) (R :: waiting ++ [request]), [])).
Proof.
  intros HC p asked granted.
  assert (Hfw0 : full_while_waiting (create C)) by (intros H; contradiction).
  assert (Hfw : full_while_waiting p)
    by (apply (after_ops_preserve _ step_full_while_waiting); exact Hfw0).
  assert (Hwc : within_capacity C p).
  { apply (after_ops_preserve _ (step_within_capacity C)). split; cbn; [reflexivity | lia]. }
  destruct Hwc as [Hc Hh].
  assert (E : asked = granted ++ wait_queue p) by exact (issue_order ops (create C) Hfw0).
  split; [exact E | split; [| split]].
  - intros n1 n2 R1 R2 Hlt H1 H2 Hn2.
    rewrite E in H1, H2. rewrite nth_error_app1 in H1, H2 by lia. split; assumption.
  - intros Hnodup R1 R2 a b c l1 l2 Ha Hg.
    assert (El : a ++ R1 :: b = l1).
    { apply (nodup_pivot R2) with (c := c) (c' := l2 ++ wait_queue p).
      - rewrite <- app_assoc. cbn [app]. rewrite <- Ha. exact Hnodup.
      - rewrite <- app_assoc. cbn [app]. rewrite <- Ha, E, Hg, <- app_assoc. reflexivity. }
    rewrite <- El. apply in_elt.
  - intros R waiting Hq.
    assert (Hfull : (capacity p <= held_count p)%Z) by (apply Hfw; rewrite Hq; discriminate).
    split.
    + unfold release. destruct (held_count p <=? 0)%Z eqn:El; [apply Z.leb_le in El; lia |].
      rewrite Hq. eexists. split; reflexivity.
    + intros request. unfold acquire. apply Z.ltb_ge in Hfull. rewrite Hfull, Hq.
      reflexivity.
Qed.

Lemma fifo_grants_witness :
  (0 < 2)%Z /\
  issued (create 2) [Acquire 1; Acquire 2; Acquire 3; Acquire 4; Release; Release] =
    grants (create 2) [Acquire 1; Acquire 2; Acquire 3; Acquire 4; Release; Release] ++ [] /\
  forall l1 l2,
    grants (create 2) [Acquire 1; Acquire 2; Acquire 3; Acquire 4; Release; Release] =
      l1 ++ 4%nat :: l2 -> In 3%nat l1.
Proof.
  pose proof (fifo_grants 2 [Acquire 1; Acquire 2; Acquire 3; Acquire 4; Release; Release])
    as H.
  assert (HC : (0 < 2)%Z) by lia.
  destruct (H HC) as (E & _ & Hin & _).
  split; [exact HC | split; [exact E |]].
  intros l1 l2 Hg.
  apply (Hin ltac:(repeat constructor; cbn; intuition lia) 3%nat 4%nat
           [1%nat; 2%nat] [] [] l1 l2 eq_refl Hg).
Defined.

End ResourcePoolFacts.

(** ** The scheduler rejects a negative delay *)

Module SchedulerFacts.
Import Scheduler.

(** C6.  A timeout with a negative delay is rejected with InvalidDelay at
    the call and leaves the scheduler as it was: the Clock, the Event
    Queue and the suspended processes are the same, so the caller is not
    suspended. *)
Theorem negative_delay_rejected (p : nat) (delay : Q) (s : scheduler) :
  delay < 0 ->
  schedule_timeout p delay s = (inl InvalidDelay, s) /\
  clock (snd (schedule_timeout p delay s)) = clock s /\
  event_queue (snd (schedule_timeout p delay s)) = event_queue s /\
  suspended (snd (schedule_timeout p delay s)) = suspended s.
Proof.
  intros H. unfold schedule_timeout.
  assert (E : (delay ?= 0) = Lt) by (apply Qlt_alt; exact H).
  rewrite E. repeat split.
Qed.

Lemma negative_delay_rejected_witness :
  - (1 # 2) < 0 /\
  schedule_timeout 7 (- (1 # 2)) (mkScheduler 3 [mkEvent 4 0 1] 1 [1%nat]) =
    (inl InvalidDelay, mkScheduler 3 [mkEvent 4 0 1] 1 [1%nat]).
Proof.
  split; [reflexivity | apply negative_delay_rejected; reflexivity].
Defined.

End SchedulerFacts.

(** ** More on the stations *)

(** X1.  The ticket check makes no draw: it makes a timeout of exactly 1/20,
    suspends on it and ends as it is resumed, raising what is thrown in. *)
Theorem check_ticket_delay (o : oracle) (i : nat) (theater : Theater) (moviegoer : Z)
    (fuel : nat) :
  (2 <= fuel)%nat ->
  run fuel o i (check_ticket theater moviegoer) =
    ([Obs (Timeout (1 # 20)) i; Obs (Yield i) (resume o (S i))],
     Returned match resume o (S i) with
              | Resumed => Normal tt
              | Thrown e => Raised e
              end).
Proof.
  intros Hfuel. do 2 (destruct fuel as [|fuel]; [lia |]).
  unfold check_ticket. do 2 run_step.
  destruct (resume o (S i)); run_step; reflexivity.
Qed.

Lemma check_ticket_delay_witness :
  run 2 calm 0 (check_ticket theater0 7) =
    ([Obs (Timeout (1 # 20)) 0%nat; Obs (Yield 0%nat) Resumed], Returned (Normal tt)).
Proof.
  apply (check_ticket_delay calm 0 theater0 7 2). lia.
Defined.

(** X2.  The food sale draws random.uniform(1, 5), that is [1 + (5-1) * u]
    for the [u] in [0, 1) that random() gives, makes the timeout of exactly
    that delay and suspends on it; the delay lies between 1 and 5. *)
Theorem sell_food_delay (o : oracle) (i : nat) (theater : Theater) (moviegoer : Z)
    (fuel : nat) :
  0 <= draw o i -> draw o i < 1 -> (3 <= fuel)%nat ->
  let d := 1 + (5 - 1) * draw o i in
  run fuel o i (sell_food theater moviegoer) =
    ([Obs Random (draw o i); Obs (Timeout d) (S i); Obs (Yield (S i)) (resume o (S (S i)))],
     Returned match resume o (S (S i)) with
              | Resumed => Normal tt
              | Thrown e => Raised e
              end)
  /\ 1 <= d /\ d <= 5.
Proof.
  intros H0 H1 Hfuel d. split; [| subst d; split; lra].
  do 3 (destruct fuel as [|fuel]; [lia |]).
  unfold sell_food, uniform.
  do 3 run_step. fold d.
  destruct (resume o (S (S i))); run_step; reflexivity.
Qed.

Lemma sell_food_delay_witness :
  run 3 hungry 0 (sell_food theater0 7) =
    ([Obs Random (1 # 4); Obs (Timeout (1 + (5 - 1) * (1 # 4))) 1%nat;
      Obs (Yield 1%nat) Resumed],
     Returned (Normal tt))
  /\ 1 <= 1 + (5 - 1) * (1 # 4) /\ 1 + (5 - 1) * (1 # 4) <= 5.
Proof.
  apply (sell_food_delay hungry 0 theater0 7 3); cbn; [discriminate | reflexivity | lia].
Defined.

(** X3.  [Theater.__init__] makes three resources and nothing else, in the
    order cashier, server, usher, each with the capacity given for it; the
    three are different objects. *)
Theorem Theater_init_resources (o : oracle) (i : nat) (num_cashiers num_servers num_ushers : Z)
    (fuel : nat) :
  (3 <= fuel)%nat ->
  exists theater,
    run fuel o i (Theater_init num_cashiers num_servers num_ushers) =
      ([Obs (NewResource num_cashiers) (cashier theater);
        Obs (NewResource num_servers) (server theater);
        Obs (NewResource num_ushers) (usher theater)],
       Returned (Normal theater)) /\
    cashier theater <> server theater /\
    cashier theater <> usher theater /\
    server theater <> usher theater.
Proof.
  intros Hfuel. do 3 (destruct fuel as [|fuel]; [lia |]).
  exists (mkTheater i (S i) (S (S i))).
  unfold Theater_init. do 4 run_step.
  cbn [after cashier server usher]. repeat split; lia.
Qed.

Lemma Theater_init_resources_witness :
  exists theater,
    run 3 calm 0 (Theater_init 3 2 1) =
      ([Obs (NewResource 3) (cashier theater);
        Obs (NewResource 2) (server theater);
        Obs (NewResource 1) (usher theater)],
       Returned (Normal theater)) /\
    cashier theater <> server theater /\
    cashier theater <> usher theater /\
    server theater <> usher theater.
Proof.
  apply (Theater_init_resources calm 0 3 2 1 3). lia.
Defined.

(** ** More on the moviegoer *)

(** X4.  Whatever the engine does, a moviegoer never holds two requests at
    once: at every point of its run it holds nothing or one request, on the
    cashier, the usher or the server of its theater. *)
Theorem go_to_movies_one_at_a_time (o : oracle) (i : nat) (moviegoer : Z) (theater : Theater)
    (fuel : nat) :
  let (tr, r) := run fuel o i (go_to_movies moviegoer theater) in
  exists held,
    audit [] tr = Some held /\
    (List.length held <= 1)%nat /\
    Forall (fun h => In (fst h) [cashier theater; usher theater; server theater]) held.
Proof.
  run_all.
  all: cbn [audit audit_step]; rewrite ?take_out_head; cbn [audit audit_step].
  all: rewrite ?take_out_head; cbn [audit audit_step]; rewrite ?take_out_head.
  all: eexists; split; [reflexivity |].
  all: split; [cbn [List.length]; lia |].
  all: repeat first [apply Forall_nil | apply Forall_cons]; cbn [fst In]; tauto.
Qed.

(** X5.  [go_to_movies] catches nothing: at most one exception is thrown
    into a moviegoer, and it is the one the moviegoer leaves with (given 19
    steps it has left); without one thrown in, the moviegoer raises
    nothing. *)
Theorem go_to_movies_raises (o : oracle) (i : nat) (moviegoer : Z) (theater : Theater)
    (fuel : nat) :
  let (tr, r) := run fuel o i (go_to_movies moviegoer theater) in
  match thrown tr with
  | [] => forall e, r <> Returned (Raised e)
  | [e] => (r = Unfinished \/ r = Returned (Raised e)) /\
           ((19 <= fuel)%nat -> r = Returned (Raised e))
  | _ => False
  end.
Proof.
  run_all.
  all: cbn [thrown thrown_of flat_map app].
  all: first [ intros e'; discriminate
             | split; [first [left; reflexivity | right; reflexivity]
                      | intros; first [reflexivity | lia]] ].
Qed.

(** X6.  A moviegoer that completes has made exactly these calls, in this
    order: it reads the clock, goes through the cashier with the ticket
    purchase, through the usher with the ticket check, draws, goes through
    the server with the food sale if the draw says 'food', reads the clock
    again and appends the difference of the two readings. *)
Theorem go_to_movies_trace (o : oracle) (i : nat) (moviegoer : Z) (theater : Theater)
    (fuel : nat) :
  let (tr, r) := run fuel o i (go_to_movies moviegoer theater) in
  completed r = true ->
  let u := draw o (11 + i)%nat in
  let food := str_in "food" (pick food_list [2 # 5; 3 # 5] u) in
  let leave := if food then (17 + i)%nat else (12 + i)%nat in
  tr =
    Obs Now (clock o i) ::
    visit (cashier theater) (PurchaseTicket theater moviegoer) (1 + i) ++
    visit (usher theater) (CheckTicket theater moviegoer) (6 + i) ++
    Obs Random u ::
    (if food then visit (server theater) (SellFood theater moviegoer) (12 + i) else []) ++
    [Obs Now (clock o leave); Obs (Append (clock o leave - clock o i)) tt].
Proof.
  run_all.
  all: cbn [completed]; try discriminate.
  all: intros _; cbn [Nat.add].
  all: match goal with
       | H : str_in _ _ = _ |- _ => rewrite H
       end.
  all: reflexivity.
Qed.

Lemma go_to_movies_trace_witness :
  completed (snd (run 20 hungry 0 (go_to_movies 7 theater0))) = true /\
  fst (run 20 hungry 0 (go_to_movies 7 theater0)) =
    Obs Now 0 ::
    visit 100%nat (PurchaseTicket theater0 7) 1 ++
    visit 102%nat (CheckTicket theater0 7) 6 ++
    Obs Random (1 # 4) ::
    visit 101%nat (SellFood theater0 7) 12 ++
    [Obs Now 17; Obs (Append (17 - 0)) tt].
Proof.
  pose proof (go_to_movies_trace hungry 0 7 theater0 20) as H.
  destruct (run 20 hungry 0 (go_to_movies 7 theater0)) as [tr r] eqn:E.
  vm_compute in E. injection E as <- <-.
  split; [reflexivity | exact (H eq_refl)].
Defined.

(** On a clock that never goes back a moviegoer appends no negative
    wait. *)
Lemma go_to_movies_waits (o : oracle) (i : nat) (moviegoer : Z) (theater : Theater)
    (fuel : nat) :
  monotone_clock o ->
  let (tr, r) := run fuel o i (go_to_movies moviegoer theater) in
  Forall (fun x => 0 <= x) (samples tr).
Proof.
  intros Hclock.
  run_all.
  all: cbn [samples sample_of flat_map app].
  all: repeat first [apply Forall_nil | apply Forall_cons].
  all: match goal with
       | |- 0 <= clock ?o' ?k - clock ?o' ?j =>
           assert (Hk : clock o' j <= clock o' k) by (apply Hclock; lia); lra
       end.
Qed.

(** X7.  Whatever the engine does, the sub-processes a moviegoer starts are
    the ticket purchase, the ticket check and the food sale, in this order
    and each at most once, all with its own number and theater; it makes
    no timeout itself. *)
Theorem go_to_movies_spawns (o : oracle) (i : nat) (moviegoer : Z) (theater : Theater)
    (fuel : nat) :
  let (tr, r) := run fuel o i (go_to_movies moviegoer theater) in
  timeouts tr = [] /\
  exists k,
    spawns tr =
      firstn k [PurchaseTicket theater moviegoer; CheckTicket theater moviegoer;
                SellFood theater moviegoer].
Proof.
  run_all.
  all: cbn [timeouts timeout_of spawns spawn_of flat_map app].
  all: split; [reflexivity |].
  all: first [ exists 0%nat; reflexivity | exists 1%nat; reflexivity
             | exists 2%nat; reflexivity | exists 3%nat; reflexivity ].
Qed.

(** ** More on the arrivals *)

(** The first eight steps of [run_theater] are the opening; then comes the
    arrival loop, with 4 bound to [moviegoer]. *)
Lemma run_theater_then (o : oracle) (i : nat) (c s u : Z) (fuel : nat) :
  run (8 + fuel) o i (run_theater c s u) =
  let (tr, r) := run fuel o (8 + i)
                   (ITree.iter (arrive (mkTheater i (1 + i)%nat (2 + i)%nat)) 4%Z) in
  (opening c s u i ++ tr, r).
Proof.
  change (8 + fuel)%nat with (S (S (S (S (S (S (S (S fuel)))))))).
  do 8 run_step.
  erewrite run_observe
    with (t' := ITree.iter (arrive (mkTheater i (S i) (S (S i)))) 4%Z) by (cbn; reflexivity).
  cbn [Nat.add].
  destruct (run fuel o (S (S (S (S (S (S (S (S i))))))))
              (ITree.iter (arrive (mkTheater i (S i) (S (S i)))) 4%Z)) as [tr r].
  reflexivity.
Qed.

(** [n] rounds in which the loop is resumed peacefully, and what follows. *)
Lemma loop_rounds_then (theater : Theater) (o : oracle) (fuel : nat) (n : nat) :
  forall i moviegoer,
  (forall k, (k < n)%nat -> resume o (1 + i + 3 * k)%nat = Resumed) ->
  run (4 * n + fuel) o i (ITree.iter (arrive theater) moviegoer) =
  let (tr, r) := run fuel o (3 * n + i)
                   (ITree.iter (arrive theater) (moviegoer + Z.of_nat n)%Z) in
  (rounds theater i (moviegoer + 1) n ++ tr, r).
Proof.
  induction n as [|n IH]; intros i moviegoer Ho.
  - cbn [Nat.mul Nat.add]. rewrite Z.add_0_r.
    destruct (run fuel o i (ITree.iter (arrive theater) moviegoer)); reflexivity.
  - replace (4 * S n + fuel)%nat with (S (S (S (S (4 * n + fuel))))) by lia.
    assert (H0 : resume o (S i) = Resumed).
    { rewrite <- (Ho 0%nat) by lia. f_equal. lia. }
    do 2 run_step. rewrite H0. do 2 run_step.
    rewrite IH.
    + replace (3 * n + S (S (S i)))%nat with (3 * S n + i)%nat by lia.
      replace (moviegoer + 1 + Z.of_nat n)%Z with (moviegoer + Z.of_nat (S n))%Z by lia.
      destruct (run fuel o (3 * S n + i)
                  (ITree.iter (arrive theater) (moviegoer + Z.of_nat (S n))%Z)) as [tr r].
      cbn [after]. rewrite rounds_S. reflexivity.
    + intros k Hk. rewrite <- (Ho (S k)) by lia. f_equal. lia.
Qed.

(** X8.  An exception thrown into [run_theater] at the yield of a round
    ends it at once: after the opening and the [n] rounds before, the run
    is the timeout and the yield of that round, no moviegoer is spawned in
    it, and [run_theater] raises the exception. *)
Theorem run_theater_interrupted (o : oracle) (i : nat) (num_cashiers num_servers num_ushers : Z)
    (n : nat) (e : exn) (more : nat) :
  (forall k, (k < n)%nat -> resume o (9 + i + 3 * k)%nat = Resumed) ->
  resume o (9 + i + 3 * n)%nat = Thrown e ->
  let theater := mkTheater i (1 + i)%nat (2 + i)%nat in
  run (10 + 4 * n + more) o i (run_theater num_cashiers num_servers num_ushers) =
    (opening num_cashiers num_servers num_ushers i ++
     rounds theater (8 + i)%nat 5 n ++
     [Obs (Timeout (1 # 5)) (8 + i + 3 * n)%nat;
      Obs (Yield (8 + i + 3 * n)%nat) (Thrown e)],
     Returned (Raised e)).
Proof.
  intros Ho He theater.
  replace (10 + 4 * n + more)%nat with (8 + (4 * n + S (S more)))%nat by lia.
  rewrite run_theater_then. fold theater.
  rewrite loop_rounds_then.
  - replace (3 * n + (8 + i))%nat with (8 + i + 3 * n)%nat by lia.
    remember (8 + i + 3 * n)%nat as j eqn:Ej.
    do 2 run_step.
    replace (S j) with (9 + i + 3 * n)%nat by lia.
    rewrite He. run_step. cbn [after].
    reflexivity.
  - intros k Hk. exact (Ho k Hk).
Qed.

Lemma run_theater_interrupted_witness :
  run (10 + 4 * 1 + 3) (interrupted 12 (Interrupt 0)) 0 (run_theater 3 2 1) =
    (opening 3 2 1 0 ++
     rounds (mkTheater 0%nat 1%nat 2%nat) 8%nat 5 1 ++
     [Obs (Timeout (1 # 5)) 11%nat; Obs (Yield 11%nat) (Thrown (Interrupt 0))],
     Returned (Raised (Interrupt 0))).
Proof.
  apply (run_theater_interrupted (interrupted 12 (Interrupt 0)) 0 3 2 1 1 (Interrupt 0) 3).
  - intros k Hk. assert (k = 0)%nat as -> by lia. reflexivity.
  - reflexivity.
Defined.

(** The moviegoers the loop spawns are numbered on from the loop variable
    without a gap; each of them comes after a timeout of its own, and every
    timeout is one of 1/5. *)
Lemma arrival_loop_numbering (theater : Theater) (fuel : nat) :
  forall (o : oracle) (i : nat) (moviegoer : Z),
  exists k,
    spawns (fst (run fuel o i (ITree.iter (arrive theater) moviegoer))) =
      map (fun j => GoToMovies (moviegoer + 1 + Z.of_nat j) theater) (seq 0 k) /\
    timeouts (fst (run fuel o i (ITree.iter (arrive theater) moviegoer))) =
      repeat (1 # 5) (List.length (timeouts (fst (run fuel o i (ITree.iter (arrive theater) moviegoer))))) /\
    (k <= List.length (timeouts (fst (run fuel o i (ITree.iter (arrive theater) moviegoer)))))%nat.
Proof.
  induction fuel as [fuel IH] using lt_wf_ind. intros o i moviegoer.
  destruct fuel as [|fuel]; [run_step; exists 0%nat; repeat split; cbn; lia |].
  run_step. rewrite fst_after.
  destruct fuel as [|fuel]; [run_step; exists 0%nat; repeat split; cbn; lia |].
  run_step. rewrite fst_after.
  destruct (resume o (S i)).
  - destruct fuel as [|fuel]; [run_step; exists 0%nat; repeat split; cbn; lia |].
    run_step. rewrite fst_after.
    destruct fuel as [|fuel].
    + run_step. exists 1%nat. cbn. rewrite Z.add_0_r. repeat split; lia.
    + run_step.
      destruct (IH fuel ltac:(lia) o (S (S (S i))) (moviegoer + 1)%Z) as (k & Hs & Ht & Hk).
      exists (S k).
      cbn [spawns timeouts flat_map spawn_of timeout_of app List.length repeat].
      fold (spawns (fst (run fuel o (S (S (S i))) (ITree.iter (arrive theater) (moviegoer + 1)%Z)))).
      fold (timeouts (fst (run fuel o (S (S (S i))) (ITree.iter (arrive theater) (moviegoer + 1)%Z)))).
      rewrite Hs, <- Ht.
      repeat split; [| lia].
      cbn [seq map]. rewrite <- seq_shift, map_map.
      f_equal; [f_equal; lia |].
      apply map_ext. intros j. f_equal. lia.
  - run_step. exists 0%nat. repeat split; cbn; lia.
Qed.

(** X9.  Whatever the engine does and wherever it stops the run, the
    moviegoers spawned by [run_theater] are numbered 0, 1, 2, ... without a
    gap or a repeat and all get the one theater made at the start; every
    timeout made is one of 1/5, and beyond the first five moviegoers there
    are no more moviegoers than timeouts. *)
Theorem run_theater_numbering (o : oracle) (i : nat) (num_cashiers num_servers num_ushers : Z)
    (fuel : nat) :
  let theater := mkTheater i (1 + i)%nat (2 + i)%nat in
  let tr := fst (run fuel o i (run_theater num_cashiers num_servers num_ushers)) in
  exists k,
    spawns tr = map (fun j => GoToMovies (Z.of_nat j) theater) (seq 0 k) /\
    NoDup (spawns tr) /\
    timeouts tr = repeat (1 # 5) (List.length (timeouts tr)) /\
    (k <= 5 + List.length (timeouts tr))%nat.
Proof.
  intros theater tr.
  assert (Hnodup : forall k, NoDup (map (fun j => GoToMovies (Z.of_nat j) theater) (seq 0 k))).
  { intros k. apply Finite.Injective_map_NoDup; [| apply seq_NoDup].
    intros a b E. injection E as E. lia. }
  assert (H : exists k,
    spawns tr = map (fun j => GoToMovies (Z.of_nat j) theater) (seq 0 k) /\
    timeouts tr = repeat (1 # 5) (List.length (timeouts tr)) /\
    (k <= 5 + List.length (timeouts tr))%nat).
  { subst tr.
    do 8 (destruct fuel as [|fuel];
          [run_all;
           first [exists 0%nat; repeat split; cbn; lia
                 | exists 1%nat; repeat split; cbn; lia
                 | exists 2%nat; repeat split; cbn; lia
                 | exists 3%nat; repeat split; cbn; lia
                 | exists 4%nat; repeat split; cbn; lia
                 | exists 5%nat; repeat split; cbn; lia ] |]).
    change (S (S (S (S (S (S (S (S fuel)))))))) with (8 + fuel)%nat.
    rewrite run_theater_then. fold theater.
    destruct (arrival_loop_numbering theater fuel o (8 + i)%nat 4%Z) as (k & Hs & Ht & Hk).
    destruct (run fuel o (8 + i)%nat (ITree.iter (arrive theater) 4%Z)) as [tr' r].
    cbn [fst] in *.
    exists (5 + k)%nat.
    unfold opening, spawns, timeouts. rewrite !flat_map_app.
    fold (spawns tr'). fold (timeouts tr'). fold theater.
    cbn [flat_map spawn_of timeout_of map seq app List.length].
    rewrite Hs, <- Ht. repeat split; [| lia].
    cbn [Nat.add seq map]. do 5 f_equal.
    rewrite <- (seq_shift k 4), <- (seq_shift k 3), <- (seq_shift k 2), <- (seq_shift k 1),
      <- (seq_shift k 0), !map_map.
    apply map_ext. intros j. f_equal. lia. }
  destruct H as (k & Hs & Ht & Hk). exists k.
  repeat split; try assumption. rewrite Hs. apply Hnodup.
Qed.

Lemma arrival_loop_ends (theater : Theater) (fuel : nat) :
  forall (o : oracle) (i : nat) (moviegoer : Z),
  match snd (run fuel o i (ITree.iter (arrive theater) moviegoer)) with
  | Returned (Normal _) => False
  | Returned (Raised e) =>
      thrown (fst (run fuel o i (ITree.iter (arrive theater) moviegoer))) = [e]
  | Unfinished =>
      thrown (fst (run fuel o i (ITree.iter (arrive theater) moviegoer))) = []
  end.
Proof.
  induction fuel as [fuel IH] using lt_wf_ind. intros o i moviegoer.
  destruct fuel as [|fuel]; [run_step; reflexivity |].
  run_step. rewrite fst_after, snd_after.
  destruct fuel as [|fuel]; [run_step; reflexivity |].
  run_step. rewrite fst_after, snd_after.
  destruct (resume o (S i)) as [|e].
  - destruct fuel as [|fuel]; [run_step; reflexivity |].
    run_step. rewrite fst_after, snd_after.
    destruct fuel as [|fuel]; [run_step; reflexivity |].
    run_step. cbn [thrown thrown_of flat_map app].
    apply (IH fuel ltac:(lia) o (S (S (S i))) (moviegoer + 1)%Z).
  - run_step. reflexivity.
Qed.

(** X10.  [run_theater] never returns of itself: a run of it is either
    cut short by the engine, and then nothing was thrown into it, or it
    ends raising the one exception that was thrown into it. *)
Theorem run_theater_never_returns (o : oracle) (i : nat)
    (num_cashiers num_servers num_ushers : Z) (fuel : nat) :
  let (tr, r) := run fuel o i (run_theater num_cashiers num_servers num_ushers) in
  match r with
  | Returned (Normal _) => False
  | Returned (Raised e) => thrown tr = [e]
  | Unfinished => thrown tr = []
  end.
Proof.
  do 8 (destruct fuel as [|fuel]; [run_all; reflexivity |]).
  change (S (S (S (S (S (S (S (S fuel)))))))) with (8 + fuel)%nat.
  rewrite run_theater_then.
  pose proof (arrival_loop_ends (mkTheater i (1 + i)%nat (2 + i)%nat) fuel o (8 + i)%nat 4%Z) as H.
  destruct (run fuel o (8 + i)%nat _) as [tr r]. cbn [fst snd] in H.
  unfold thrown, opening. rewrite flat_map_app.
  exact H.
Qed.

(** ** More on who does what *)

Lemma arrival_loop_idle (theater : Theater) (res : object) (fuel : nat) :
  forall (o : oracle) (i : nat) (moviegoer : Z),
  uses res (fst (run fuel o i (ITree.iter (arrive theater) moviegoer))) = [] /\
  draws (fst (run fuel o i (ITree.iter (arrive theater) moviegoer))) = [] /\
  nows (fst (run fuel o i (ITree.iter (arrive theater) moviegoer))) = [].
Proof.
  induction fuel as [fuel IH] using lt_wf_ind. intros o i moviegoer.
  destruct fuel as [|fuel]; [run_step; repeat split |].
  run_step. rewrite fst_after.
  destruct fuel as [|fuel]; [run_step; repeat split |].
  run_step. rewrite fst_after.
  destruct (resume o (S i)).
  - destruct fuel as [|fuel]; [run_step; repeat split |].
    run_step. rewrite fst_after.
    destruct fuel as [|fuel]; [run_step; repeat split |].
    run_step. unfold uses.
    cbn [filter touches draws draw_of nows now_of flat_map app]. apply IH. lia.
  - run_step. repeat split.
Qed.

(** X11.  Only moviegoers touch the resources and read the clock: the
    station processes and [run_theater] request nothing, release nothing
    and never ask for the time; [run_theater] and the ticket check make no
    draw either. *)
Theorem only_moviegoers_queue (g : generator) (o : oracle) (i : nat) (fuel : nat)
    (res : object) :
  (forall moviegoer theater, g <> GoToMovies moviegoer theater) ->
  let tr := fst (run fuel o i (body g)) in
  uses res tr = [] /\ nows tr = [] /\
  match g with
  | CheckTicket _ _ | RunTheater _ _ _ => draws tr = []
  | _ => (List.length (draws tr) <= 1)%nat
  end.
Proof.
  intros Hg tr. subst tr.
  destruct g as [m th | th m | th m | th m | c s u]; cbn [body].
  - now destruct (Hg m th).
  - unfold purchase_ticket, uniform.
    assert (H : let (tr, r) := run fuel o i
                  (d <-! (u <-! call Random ;;; Ret (Normal (1 + (3 - 1) * u))) ;;;
                   ev <-! call (Timeout d) ;;; yield_ ev) in
                uses res tr = [] /\ nows tr = [] /\ (List.length (draws tr) <= 1)%nat).
    { run_all; repeat split; cbn; lia. }
    destruct (run fuel o i _). exact H.
  - unfold check_ticket.
    assert (H : let (tr, r) := run fuel o i (ev <-! call (Timeout (1 # 20)) ;;; yield_ ev) in
                uses res tr = [] /\ nows tr = [] /\ draws tr = []).
    { run_all; repeat split. }
    destruct (run fuel o i _). exact H.
  - unfold sell_food, uniform.
    assert (H : let (tr, r) := run fuel o i
                  (d <-! (u <-! call Random ;;; Ret (Normal (1 + (5 - 1) * u))) ;;;
                   ev <-! call (Timeout d) ;;; yield_ ev) in
                uses res tr = [] /\ nows tr = [] /\ (List.length (draws tr) <= 1)%nat).
    { run_all; repeat split; cbn; lia. }
    destruct (run fuel o i _). exact H.
  - do 8 (destruct fuel as [|fuel]; [run_all; repeat split |]).
    change (S (S (S (S (S (S (S (S fuel)))))))) with (8 + fuel)%nat.
    rewrite run_theater_then.
    pose proof (arrival_loop_idle (mkTheater i (1 + i)%nat (2 + i)%nat) res fuel o (8 + i)%nat 4%Z)
      as (Hu & Hd & Hn).
    destruct (run fuel o (8 + i)%nat _) as [tr r]. cbn [fst] in *.
    unfold uses, opening, draws, nows in *. rewrite filter_app, !flat_map_app.
    rewrite Hu, Hd, Hn. repeat split.
Qed.

Lemma only_moviegoers_queue_witness :
  let tr := fst (run 5 calm 0 (body (SellFood theater0 7))) in
  uses 100%nat tr = [] /\ nows tr = [] /\ (List.length (draws tr) <= 1)%nat.
Proof.
  apply (only_moviegoers_queue (SellFood theater0 7) calm 0 5 100%nat).
  intros moviegoer theater. discriminate.
Defined.

(** ** More on the samples and the averages *)

Lemma calm_monotone : monotone_clock calm.
Proof.
  intros j k H. unfold calm, clock. rewrite <- Zle_Qle. lia.
Qed.

Lemma samples_nonneg (g : generator) (o : oracle) (i : nat) (fuel : nat) :
  monotone_clock o ->
  Forall (fun x => 0 <= x) (samples (fst (run fuel o i (body g)))).
Proof.
  intros Hclock.
  destruct g as [m th | th m | th m | th m | c s u].
  - cbn [body]. pose proof (go_to_movies_waits o i m th fuel Hclock) as H.
    destruct (run fuel o i (go_to_movies m th)). exact H.
  - pose proof (samples_of_body (PurchaseTicket th m) o i fuel) as H.
    destruct (samples _); [constructor | discriminate H].
  - pose proof (samples_of_body (CheckTicket th m) o i fuel) as H.
    destruct (samples _); [constructor | discriminate H].
  - pose proof (samples_of_body (SellFood th m) o i fuel) as H.
    destruct (samples _); [constructor | discriminate H].
  - pose proof (samples_of_body (RunTheater c s u) o i fuel) as H.
    destruct (samples _); [constructor | discriminate H].
Qed.

Lemma sum_cons (x : Q) (data : list Q) : sum (x :: data) = x + sum data.
Proof. reflexivity. Qed.

Lemma sum_perm (data data' : list Q) :
  Permutation data data' -> sum data == sum data'.
Proof.
  induction 1 as [| x l l' _ IH | x y l | l l' l'' _ IH1 _ IH2].
  - reflexivity.
  - rewrite !sum_cons, IH. reflexivity.
  - rewrite !sum_cons. ring.
  - rewrite IH1. exact IH2.
Qed.

Lemma count_S (n : nat) : inject_Z (Z.of_nat (S n)) == inject_Z (Z.of_nat n) + 1.
Proof.
  rewrite Nat2Z.inj_succ, <- Z.add_1_r, inject_Z_plus. reflexivity.
Qed.

Lemma sum_between (a b : Q) (data : list Q) :
  Forall (fun x => a <= x /\ x <= b) data ->
  inject_Z (Z.of_nat (List.length data)) * a <= sum data /\
  sum data <= inject_Z (Z.of_nat (List.length data)) * b.
Proof.
  induction 1 as [| x l [Ha Hb] _ [IHa IHb]].
  - cbn [List.length sum fold_right Z.of_nat]. change (inject_Z 0) with 0. split; lra.
  - cbn [List.length]. rewrite sum_cons, count_S. split; lra.
Qed.

Lemma mean_between (a b : Q) (data : list Q) :
  data <> [] ->
  Forall (fun x => a <= x /\ x <= b) data ->
  exists average, mean data = Normal average /\ a <= average /\ average <= b.
Proof.
  intros Hne H. destruct (sum_between a b data H) as [Ha Hb].
  destruct data as [|x xs]; [contradiction |].
  cbn [mean]. eexists. split; [reflexivity |].
  set (n := inject_Z (Z.of_nat (List.length (x :: xs)))) in *.
  assert (Hn : 0 < n).
  { subst n. cbn [List.length]. rewrite count_S.
    assert (0 <= inject_Z (Z.of_nat (List.length xs))); [| lra].
    change 0 with (inject_Z 0). rewrite <- Zle_Qle. lia. }
  split.
  - apply Qle_shift_div_l; [exact Hn | lra].
  - apply Qle_shift_div_r; [exact Hn | lra].
Qed.

(** What [calculate_wait_time] returns is fixed by the sum and the number
    of the samples. *)
Lemma calculate_wait_time_same (w w' : list Q) :
  sum w == sum w' -> List.length w = List.length w' ->
  same_time (calculate_wait_time w) (calculate_wait_time w').
Proof.
  intros Hs Hl.
  destruct w as [|x xs], w' as [|x' xs']; try discriminate Hl; [reflexivity |].
  unfold calculate_wait_time, divmod. cbn [mean same_time].
  rewrite Hl.
  set (n := inject_Z (Z.of_nat (List.length (x' :: xs')))).
  assert (E : sum (x :: xs) / n == sum (x' :: xs') / n) by (rewrite Hs; reflexivity).
  assert (Ef : Qfloor (sum (x :: xs) / n / 1) = Qfloor (sum (x' :: xs') / n / 1)).
  { apply Qfloor_comp. rewrite E. reflexivity. }
  rewrite Ef. split; [reflexivity |]. rewrite E. reflexivity.
Qed.

(** X12.  The average lies between the least and the greatest sample:
    if every wait is between [a] and [b], so is what
    [get_average_wait_time] returns. *)
Theorem average_between (a b : Q) (wait_times : list Q) :
  wait_times <> [] ->
  Forall (fun x => a <= x /\ x <= b) wait_times ->
  exists average_wait,
    get_average_wait_time wait_times = Normal average_wait /\
    a <= average_wait /\ average_wait <= b.
Proof.
  intros Hne H. destruct (mean_between a b wait_times Hne H) as (avg & E & Hab).
  exists avg. unfold get_average_wait_time. rewrite E. split; [reflexivity | exact Hab].
Qed.

Lemma average_between_witness :
  exists average_wait,
    get_average_wait_time [3 # 2; 2] = Normal average_wait /\
    1 <= average_wait /\ average_wait <= 2.
Proof.
  apply (average_between 1 2 [3 # 2; 2]).
  - discriminate.
  - repeat constructor; cbn; discriminate.
Defined.

(** X13.  If every wait is between [a] and [b], the minutes that
    [calculate_wait_time] returns are between the floors of [a] and of
    [b]. *)
Theorem minutes_between (a b : Q) (wait_times : list Q) :
  wait_times <> [] ->
  Forall (fun x => a <= x /\ x <= b) wait_times ->
  exists minutes seconds,
    calculate_wait_time wait_times = Normal (minutes, seconds) /\
    inject_Z (Qfloor a) <= minutes /\ minutes <= inject_Z (Qfloor b).
Proof.
  intros Hne H. destruct (mean_between a b wait_times Hne H) as (avg & E & Ha & Hb).
  unfold calculate_wait_time, divmod. rewrite E.
  eexists. eexists. split; [reflexivity |].
  assert (Ef : Qfloor (avg / 1) = Qfloor avg) by (apply Qfloor_comp, Qdiv_1).
  rewrite Ef, <- !Zle_Qle. split; apply Qfloor_resp_le; assumption.
Qed.

Lemma minutes_between_witness :
  exists minutes seconds,
    calculate_wait_time [3 # 2; 2] = Normal (minutes, seconds) /\
    inject_Z (Qfloor 1) <= minutes /\ minutes <= inject_Z (Qfloor 2).
Proof.
  apply (minutes_between 1 2 [3 # 2; 2]).
  - discriminate.
  - repeat constructor; cbn; discriminate.
Defined.

(** X14.  Neither helper looks at the order of the samples: on two lists
    with the same samples in any order [get_average_wait_time] returns the
    same average and [calculate_wait_time] the same minutes and seconds. *)
Theorem averages_ignore_order (w w' : list Q) :
  Permutation w w' ->
  same_average (get_average_wait_time w) (get_average_wait_time w') /\
  same_time (calculate_wait_time w) (calculate_wait_time w').
Proof.
  intros H. pose proof (sum_perm w w' H) as Hs. pose proof (Permutation_length H) as Hl.
  split; [| apply calculate_wait_time_same; assumption].
  destruct w as [|x xs], w' as [|x' xs']; try discriminate Hl; [reflexivity |].
  unfold get_average_wait_time. cbn [mean same_average]. rewrite Hl, Hs. reflexivity.
Qed.

Lemma averages_ignore_order_witness :
  same_average (get_average_wait_time [3 # 2; 2]) (get_average_wait_time [2; 3 # 2]) /\
  same_time (calculate_wait_time [3 # 2; 2]) (calculate_wait_time [2; 3 # 2]).
Proof.
  apply (averages_ignore_order [3 # 2; 2] [2; 3 # 2]). apply perm_swap.
Defined.

(** X15.  Whatever the processes are, in whatever order the engine lets
    them make their calls and wherever it stops them: if no clock goes
    back, every wait in [wait_times] is non-negative, and so are the
    minutes that [calculate_wait_time] returns once there is a sample. *)
Theorem wait_times_nonneg (ps : list proc) (schedule : list nat) :
  Forall (fun p => monotone_clock (surroundings p)) ps ->
  let wait_times := fst (replay schedule (map trace_of ps) []) in
  Forall (fun x => 0 <= x) wait_times /\
  (wait_times <> [] ->
   exists minutes seconds,
     calculate_wait_time wait_times = Normal (minutes, seconds) /\ 0 <= minutes).
Proof.
  intros Hps wait_times.
  assert (Hall : Forall (fun x => 0 <= x) (flat_map samples (map trace_of ps))).
  { clear wait_times. induction Hps as [|p ps Hp _ IH]; [constructor |].
    cbn [map flat_map]. apply Forall_app. split; [| exact IH].
    apply samples_nonneg, Hp. }
  assert (Hw : Forall (fun x => 0 <= x) wait_times).
  { pose proof (replay_samples schedule (map trace_of ps) []) as H.
    cbn [app] in H. symmetry in H.
    apply (Permutation_Forall H) in Hall. apply Forall_app in Hall. apply Hall. }
  split; [exact Hw |].
  intros Hne.
  destruct wait_times as [|x xs] eqn:E; [contradiction |].
  assert (Hsum : 0 <= sum (x :: xs)).
  { clear E Hne. induction Hw as [|y l Hy _ IH]; [cbn; lra |]. rewrite sum_cons. lra. }
  unfold calculate_wait_time, divmod. cbn [mean].
  eexists. eexists. split; [reflexivity |].
  set (n := inject_Z (Z.of_nat (List.length (x :: xs)))).
  assert (Hn : 0 < n).
  { subst n. cbn [List.length]. rewrite count_S.
    assert (0 <= inject_Z (Z.of_nat (List.length xs))); [| lra].
    change 0 with (inject_Z 0). rewrite <- Zle_Qle. lia. }
  change 0 with (inject_Z 0). rewrite <- Zle_Qle.
  change 0%Z with (Qfloor 0). apply Qfloor_resp_le.
  rewrite Qdiv_1. apply Qle_shift_div_l; [exact Hn | lra].
Qed.

Lemma wait_times_nonneg_witness :
  let wait_times := fst (replay turn_by_turn (map trace_of two_moviegoers) []) in
  Forall (fun x => 0 <= x) wait_times /\
  (wait_times <> [] ->
   exists minutes seconds,
     calculate_wait_time wait_times = Normal (minutes, seconds) /\ 0 <= minutes).
Proof.
  apply (wait_times_nonneg two_moviegoers turn_by_turn).
  unfold two_moviegoers.
  repeat first [apply Forall_nil | apply Forall_cons; [exact calm_monotone |]].
Defined.
